(** * py_micro.service: configuration, server lifecycle and health-check handlers

    A shallow embedding of the Python sources

      - [py_micro/service/config/server_config.py], [logging_config.py]
      - [py_micro/service/main.py] (class [GrpcServer])
      - [py_micro/service/validators/common.py]
      - [py_micro/service/services/template_service.py] (plain handler)
      - [py_micro/service/template_service.py] (repository-backed handler)

    Python integers are [Z], strings are [string], [os.environ] is a list of
    name/value pairs, exceptions carry their [str(e)] text.  Calls into
    external collaborators (the gRPC transport, the logger, the model
    repository, pydantic's string-to-int coercion) are interfaces whose
    behaviour is a parameter of the model. *)

From Stdlib Require Import ZArith Lia Ascii.
From stdpp Require Import base option list strings gmap pretty.

Open Scope Z_scope.

(* ===================================================================== *)
(** ** Configuration: [ServerConfig] and [LoggingConfig]                  *)
(* ===================================================================== *)

Module Config.

(** Values a settings field can receive: keyword arguments coming from the
    container's configuration dictionary are integers or strings; values
    read from the environment are always strings. *)
Inductive PyVal :=
| PyInt (z : Z)
| PyStr (s : string).

(** One line of a pydantic [ValidationError]. *)
Inductive ErrorDetail :=
| int_parsing (field : string) (input : string)
| string_type (field : string) (input : Z)
| greater_than (field : string) (gt : Z) (input : Z).

Definition ValidationError := list ErrorDetail.

(** Lower-casing, as [str.lower] on ASCII names. *)
Definition lower_ascii (c : ascii) : ascii :=
  let n := nat_of_ascii c in
  if ((65 <=? n)%nat && (n <=? 90)%nat)%bool then ascii_of_nat (n + 32) else c.

Fixpoint lower (s : string) : string :=
  match s with
  | EmptyString => EmptyString
  | String c r => String (lower_ascii c) (lower r)
  end.

(** [SettingsConfigDict(env_prefix=...)] with the default
    [case_sensitive=False]: the names of the environment are lower-cased
    when they are read (a later entry of the same lower-cased name
    replaces an earlier one), and a field is looked up under the
    lower-cased [env_prefix + field_name]. *)
Definition read_env_vars (environ : list (string * string)) : gmap string string :=
  foldl (fun m kv => <[lower kv.1 := kv.2]> m) ∅ environ.

Definition env_value (env_prefix field : string) (environ : list (string * string))
  : option string :=
  read_env_vars environ !! lower (env_prefix +:+ field).

(** Source priority of [BaseSettings]: keyword argument, then environment,
    then the declared default (signalled by [None]). *)
Definition field_input (kw : option PyVal) (env_prefix field : string)
    (environ : list (string * string)) : option PyVal :=
  match kw with
  | Some v => Some v
  | None => PyStr <$> env_value env_prefix field environ
  end.

Section Validation.

(** pydantic's coercion of a string to [int]; [None] when the string is
    not an integer literal. *)
Variable str_to_int : string -> option Z.

(** [field: str = Field(default=d)] *)
Definition validate_str (field : string) (d : string) (v : option PyVal)
  : ValidationError + string :=
  match v with
  | None => inr d
  | Some (PyStr s) => inr s
  | Some (PyInt z) => inl [string_type field z]
  end.

(** [field: int = Field(default=d)]: no range constraint. *)
Definition validate_int (field : string) (d : Z) (v : option PyVal)
  : ValidationError + Z :=
  match v with
  | None => inr d
  | Some (PyInt z) => inr z
  | Some (PyStr s) =>
      match str_to_int s with
      | Some z => inr z
      | None => inl [int_parsing field s]
      end
  end.

(** [field: int = Field(default=d, gt=bound)]; the default itself is not
    validated. *)
Definition validate_int_gt (field : string) (d : Z) (bound : Z) (v : option PyVal)
  : ValidationError + Z :=
  match v with
  | None => inr d
  | Some _ =>
      match validate_int field d v with
      | inr z => if bound <? z then inr z else inl [greater_than field bound z]
      | inl e => inl e
      end
  end.

Definition errors {A} (r : ValidationError + A) : ValidationError :=
  match r with inl e => e | inr _ => [] end.

(** *** server_config.py *)

Record ServerConfig := {
  host : string;
  port : Z;
  max_workers : Z;
  grace_period : Z
}.

Definition ServerConfig_env_prefix : string := "SERVER_".

(** The keyword arguments unpacked into the [ServerConfig] constructor. *)
Record ServerKwargs := {
  kw_host : option PyVal;
  kw_port : option PyVal;
  kw_max_workers : option PyVal;
  kw_grace_period : option PyVal
}.

Definition no_server_kwargs : ServerKwargs :=
  {| kw_host := None; kw_port := None; kw_max_workers := None; kw_grace_period := None |}.

Definition ServerConfig_new (kw : ServerKwargs) (environ : list (string * string))
  : ValidationError + ServerConfig :=
  let input k f := field_input k ServerConfig_env_prefix f environ in
  let h := validate_str "host" "0.0.0.0" (input (kw_host kw) "host") in
  let p := validate_int "port" 50051 (input (kw_port kw) "port") in
  let w := validate_int_gt "max_workers" 10 0 (input (kw_max_workers kw) "max_workers") in
  let g := validate_int "grace_period" 30 (input (kw_grace_period kw) "grace_period") in
  match h, p, w, g with
  | inr h', inr p', inr w', inr g' =>
      inr {| host := h'; port := p'; max_workers := w'; grace_period := g' |}
  | _, _, _, _ => inl (errors h ++ errors p ++ errors w ++ errors g)
  end.

(** *** logging_config.py *)

Record LoggingConfig := {
  level : string;
  format : string
}.





End Validation.

(** A sample coercion used to run the model: an optional sign followed by
    decimal digits. *)
Definition digit_of (c : ascii) : option Z :=
  let n := nat_of_ascii c in
  if ((48 <=? n)%nat && (n <=? 57)%nat)%bool then Some (Z.of_nat n - 48) else None.

Fixpoint digits (acc : Z) (s : string) : option Z :=
  match s with
  | EmptyString => Some acc
  | String c r =>
      match digit_of c with
      | Some d => digits (10 * acc + d) r
      | None => None
      end
  end.

Definition decimal (s : string) : option Z :=
  match s with
  | EmptyString => None
  | String "-" (String _ _ as r) => Z.opp <$> digits 0 r
  | String "+" (String _ _ as r) => digits 0 r
  | _ => digits 0 s
  end.

Definition with_port (v : PyVal) (kw : ServerKwargs) : ServerKwargs :=
  {| kw_host := kw_host kw; kw_port := Some v;
     kw_max_workers := kw_max_workers kw; kw_grace_period := kw_grace_period kw |}.

Definition with_max_workers (v : PyVal) (kw : ServerKwargs) : ServerKwargs :=
  {| kw_host := kw_host kw; kw_port := kw_port kw;
     kw_max_workers := Some v; kw_grace_period := kw_grace_period kw |}.

Definition set_port (p : Z) (c : ServerConfig) : ServerConfig :=
  {| host := host c; port := p; max_workers := max_workers c;
     grace_period := grace_period c |}.

Definition set_max_workers (w : Z) (c : ServerConfig) : ServerConfig :=
  {| host := host c; port := port c; max_workers := w;
     grace_period := grace_period c |}.


(** The reading of the specification under which a port outside 1..65535
    is refused by the constructor. *)
Definition port_range_enforced : Prop :=
  forall (str_to_int : string -> option Z) (p : Z),
    ~ (1 <= p <= 65535) ->
    exists e, ServerConfig_new str_to_int (with_port (PyInt p) no_server_kwargs) [] = inl e.

End Config.

(* ===================================================================== *)
(** ** Server lifecycle: class [GrpcServer] of main.py                    *)
(* ===================================================================== *)

Module Lifecycle.
Import Config.

(** Identity of a transport server object returned by [grpc.aio.server]. *)
Definition handle := nat.

(** Calls that leave [GrpcServer], in program order.  The keyword fields
    of log calls are not recorded. *)
Inductive event :=
| LogInfo (msg : string)
| LogError (msg : string)
| AioServer (h : option handle) (workers : Z)
| AddServicer (h : handle)
| EnableReflection (h : handle)
| AddInsecurePort (h : handle) (listen_addr : string)
| ServerStart (h : handle)
| ServerStop (h : handle) (grace : Z).

(** The attributes assigned in [__init__]; [_shutdown_event] is the flag
    of the [asyncio.Event].  The injected service and logger are
    collaborators and appear only through [event]s. *)
Record GrpcServer := {
  _config : ServerConfig;
  _server : option handle;
  _shutdown_event : bool
}.

(** The object [__init__] leaves behind once the settings are validated. *)
Definition GrpcServer_new (c : ServerConfig) : GrpcServer :=
  {| _config := c; _server := None; _shutdown_event := false |}.

Definition GrpcServer_init (str_to_int : string -> option Z)
    (config : ServerKwargs) (environ : list (string * string))
  : ValidationError + GrpcServer :=
  match ServerConfig_new str_to_int config environ with
  | inl e => inl e
  | inr c => inr (GrpcServer_new c)
  end.

Record state := {
  srv : GrpcServer;
  trace : list event;
  fresh : handle
}.

Definition emit (e : event) (s : state) : state :=
  {| srv := srv s; trace := trace s ++ [e]; fresh := fresh s |}.

Definition set_server (o : option handle) (s : state) : state :=
  {| srv := {| _config := _config (srv s); _server := o;
               _shutdown_event := _shutdown_event (srv s) |};
     trace := trace s; fresh := fresh s |}.

Definition event_set (s : state) : state :=
  {| srv := {| _config := _config (srv s); _server := _server (srv s);
               _shutdown_event := true |};
     trace := trace s; fresh := fresh s |}.

Definition allocate (s : state) : state :=
  {| srv := srv s; trace := trace s; fresh := S (fresh s) |}.

(** Where a coroutine of [GrpcServer] stands: scheduled but not yet run,
    suspended at one of its [await]s, or finished. *)
Inductive pc :=
| StartCall
| StartAwaitStart            (* await self._server.start() *)
| StartAwaitEvent            (* await self._shutdown_event.wait() *)
| StartReturn                (* fell off the end, after the wait *)
| StartReturnNoServer        (* the early return when no server was created *)
| StartRaise (e : string)
| StopCall
| StopAwaitStop              (* await self._server.stop(grace_period) *)
| StopReturn
| StopRaise (e : string).

(** What the transport answers to the call a coroutine is making. *)
Inductive reply :=
| Done
| NoServer                   (* grpc.aio.server(...) returned None *)
| Raises (e : string).

(** [start], from its call up to its first suspension.  The transport
    either hands out no server ([NoServer]), refuses the address when
    [add_insecure_port] binds it ([Raises]), or accepts everything up to
    the call of its [start]. *)
Definition start_call (r : reply) (s : state) : pc * state :=
  let s := emit (LogInfo "Starting gRPC server") s in
  let cfg := _config (srv s) in
  match r with
  | NoServer =>
      let s := set_server None (emit (AioServer None (max_workers cfg)) s) in
      (StartReturnNoServer, emit (LogError "Failed to create server") s)
  | _ =>
      let h := fresh s in
      let s := set_server (Some h) (allocate (emit (AioServer (Some h) (max_workers cfg)) s)) in
      let s := emit (EnableReflection h) (emit (AddServicer h) s) in
      let listen_addr := host cfg +:+ ":" +:+ pretty (port cfg) in
      let s := emit (AddInsecurePort h listen_addr) s in
      match r with
      | Raises e => (StartRaise e, s)
      | _ => (StartAwaitStart, emit (ServerStart h) s)
      end
  end.

(** [start], resumed when [self._server.start()] completes: it logs and
    reaches [Event.wait], which returns at once when the flag is set and
    suspends otherwise. *)
Definition start_resume (r : reply) (s : state) : option (pc * state) :=
  match r with
  | Done =>
      let s := emit (LogInfo "gRPC server started") s in
      Some (if _shutdown_event (srv s) then StartReturn else StartAwaitEvent, s)
  | Raises e => Some (StartRaise e, s)
  | NoServer => None
  end.

(** [start], suspended in [Event.wait]: it is woken only by [Event.set]. *)
Definition start_wake (s : state) : option (pc * state) :=
  if _shutdown_event (srv s) then Some (StartReturn, s) else None.

(** [stop], from its call up to its first suspension. *)
Definition stop_call (s : state) : pc * state :=
  match _server (srv s) with
  | None => (StopReturn, s)
  | Some h =>
      let s := emit (LogInfo "Stopping gRPC server") s in
      let s := event_set s in
      (StopAwaitStop, emit (ServerStop h (grace_period (_config (srv s)))) s)
  end.

(** [stop], resumed when the transport's [stop] completes. *)
Definition stop_resume (r : reply) (s : state) : option (pc * state) :=
  match r with
  | Done => Some (StopReturn, emit (LogInfo "gRPC server stopped") s)
  | Raises e => Some (StopRaise e, s)
  | NoServer => None
  end.

(** One scheduling slice of a coroutine; [None] when it cannot run. *)
Definition run_task (r : reply) (p : pc) (s : state) : option (pc * state) :=
  match p with
  | StartCall => Some (start_call r s)
  | StartAwaitStart => start_resume r s
  | StartAwaitEvent => start_wake s
  | StopCall => Some (stop_call s)
  | StopAwaitStop => stop_resume r s
  | StartReturn | StartReturnNoServer | StartRaise _ | StopReturn | StopRaise _ => None
  end.

(** The event loop: the server object and the coroutines running on it. *)
Record system := {
  st : state;
  tasks : list pc
}.

Definition spawn (p : pc) (sys : system) : system :=
  {| st := st sys; tasks := tasks sys ++ [p] |}.

(** [handle_signal]: log, then [asyncio.create_task(self.stop())]. *)
Definition handle_signal (signum : Z) (sys : system) : system :=
  spawn StopCall {| st := emit (LogInfo "Received shutdown signal") (st sys);
                    tasks := tasks sys |}.

Inductive label :=
| InvokeStart                      (* somebody calls start() *)
| InvokeStop                       (* somebody calls stop() *)
| Signal (signum : Z)              (* the loop delivers SIGINT or SIGTERM *)
| Resume (i : nat) (r : reply).    (* the loop runs coroutine i *)

Definition exec (l : label) (sys : system) : option system :=
  match l with
  | InvokeStart => Some (spawn StartCall sys)
  | InvokeStop => Some (spawn StopCall sys)
  | Signal n => Some (handle_signal n sys)
  | Resume i r =>
      match tasks sys !! i with
      | Some p =>
          match run_task r p (st sys) with
          | Some (p', s') => Some {| st := s'; tasks := <[i := p']> (tasks sys) |}
          | None => None
          end
      | None => None
      end
  end.

Fixpoint run (ls : list label) (sys : system) : option system :=
  match ls with
  | [] => Some sys
  | l :: ls' =>
      match exec l sys with
      | Some sys' => run ls' sys'
      | None => None
      end
  end.

(** A freshly constructed server, no coroutine yet. *)
Definition init (c : ServerConfig) : system :=
  {| st := {| srv := GrpcServer_new c; trace := []; fresh := O |}; tasks := [] |}.

Definition is_drain (e : event) : bool :=
  match e with ServerStop _ _ => true | _ => false end.

(** How many times the transport was asked to stop with a grace period. *)
Definition drain_count (tr : list event) : nat :=
  length (filter (fun e => is_drain e = true) tr).

Definition drains (sys : system) : nat := drain_count (trace (st sys)).

Definition latch (sys : system) : bool := _shutdown_event (srv (st sys)).

Definition server (sys : system) : option handle := _server (srv (st sys)).

Definition default_config : ServerConfig :=
  {| host := "0.0.0.0"; port := 50051; max_workers := 10; grace_period := 30 |}.

(** What every state of a run satisfies: a set shutdown event comes with a
    requested drain, and a [start] that returned after its wait comes with
    a set shutdown event. *)
Definition shutdown_invariant (sys : system) : Prop :=
  (latch sys = true -> (1 <= drains sys)%nat)
  /\ (forall i, tasks sys !! i = Some StartReturn -> latch sys = true).

(** One call of [stop], run until it returns: the call itself and, when it
    suspended in the transport's [stop], its resumption. *)
Definition stop_to_completion (sys : system) : option system :=
  let k := length (tasks sys) in
  match exec (Resume k Done) (spawn StopCall sys) with
  | Some sys1 =>
      match tasks sys1 !! k with
      | Some StopAwaitStop => exec (Resume k Done) sys1
      | _ => Some sys1
      end
  | None => None
  end.

(** [stop] called [n] times, one after the other. *)
Fixpoint stop_repeatedly (n : nat) (sys : system) : option system :=
  match n with
  | O => Some sys
  | S n' =>
      match stop_to_completion sys with
      | Some sys' => stop_repeatedly n' sys'
      | None => None
      end
  end.

(** The reading of the specification under which the drain is requested at
    most once, however often [stop] and [handle_signal] are invoked. *)
Definition drain_runs_at_most_once : Prop :=
  forall c ls sys, run ls (init c) = Some sys -> (drains sys <= 1)%nat.

(** The reading of the specification under which [start] on a server that
    is already serving (a first [start] is parked on the shutdown event)
    fails with an exception whatever the transport answers. *)
Definition second_start_rejected : Prop :=
  forall c ls sys i j r sys',
    run ls (init c) = Some sys ->
    tasks sys !! i = Some StartAwaitEvent ->
    tasks sys !! j = Some StartCall ->
    exec (Resume j r) sys = Some sys' ->
    exists e, tasks sys' !! j = Some (StartRaise e).

(** *** Further vocabulary for runs of the event loop *)

(** The values an event takes from the configuration: the size of the
    thread pool, the listen address, the grace period. *)
Definition from_config (c : ServerConfig) (e : event) : Prop :=
  match e with
  | AioServer _ w => w = max_workers c
  | AddInsecurePort _ a => a = host c +:+ ":" +:+ pretty (port c)
  | ServerStop _ g => g = grace_period c
  | _ => True
  end.

(** The calls [start] makes on a transport between creating and starting it. *)
Definition preparation (h : handle) (w : Z) (a : string) : list event :=
  [AioServer (Some h) w; AddServicer h; EnableReflection h; AddInsecurePort h a].

(** Every start of a transport comes right after its preparation. *)
Definition prepared_before_start (tr : list event) : Prop :=
  forall pre post h,
    tr = pre ++ ServerStart h :: post ->
    exists pre' w a, pre = pre' ++ preparation h w a.

(** Every transport asked to stop was created before. *)
Definition stops_only_created (tr : list event) : Prop :=
  forall pre post h g,
    tr = pre ++ ServerStop h g :: post ->
    exists w, In (AioServer (Some h) w) pre.

Definition is_stop_invocation (l : label) : bool :=
  match l with InvokeStop | Signal _ => true | _ => false end.

(** How many times [stop] was invoked, directly or through a signal. *)
Definition stop_invocations (ls : list label) : nat :=
  length (filter (fun l => is_stop_invocation l = true) ls).

Definition is_StopCall (p : pc) : bool :=
  match p with StopCall => true | _ => false end.

(** The [stop] coroutines that were scheduled and have not run yet. *)
Definition pending_stops (ps : list pc) : nat :=
  length (filter (fun p => is_StopCall p = true) ps).

End Lifecycle.

(* ===================================================================== *)
(** ** The health-check handlers                                          *)
(* ===================================================================== *)

Module Handler.

(** The generated message types ([py_micro.model.template_service_pb2]). *)
Inductive HealthCheckRequest := EmptyRequest.

Inductive Status := SERVING | NOT_SERVING.

Record HealthCheckResponse := {
  status : Status;
  message : string
}.

(** [grpc.StatusCode] *)
Inductive StatusCode :=
| OK | CANCELLED | UNKNOWN | INVALID_ARGUMENT | DEADLINE_EXCEEDED | NOT_FOUND
| ALREADY_EXISTS | PERMISSION_DENIED | RESOURCE_EXHAUSTED | FAILED_PRECONDITION
| ABORTED | OUT_OF_RANGE | UNIMPLEMENTED | INTERNAL | UNAVAILABLE | DATA_LOSS
| UNAUTHENTICATED.

(** What is raised: an instance of [Exception], with its [str(e)] text, or
    another [BaseException] ([KeyboardInterrupt], [SystemExit],
    [asyncio.CancelledError]), given by the name of its class. *)
Inductive raised :=
| Exception (msg : string)
| BaseException (class : string).

(** How a call of a handler ends: it returns a value, the RPC is aborted
    through [context.abort], or an exception leaves the handler. *)
Inductive outcome (A : Type) :=
| Return (a : A)
| Abort (code : StatusCode) (details : string)
| Raise (e : raised).
Arguments Return {A} a.
Arguments Abort {A} code details.
Arguments Raise {A} e.

(** Handler code threads the state [S] of its collaborators and may stop
    early. *)
Definition M (S A : Type) : Type := S -> outcome A * S.

Global Instance M_ret {S} : MRet (M S) := fun A a s => (Return a, s).

Global Instance M_bind {S} : MBind (M S) := fun A B k m s =>
  match m s with
  | (Return a, s') => k a s'
  | (Abort c d, s') => (Abort c d, s')
  | (Raise e, s') => (Raise e, s')
  end.

(** [try: body except Exception as e: handler(str(e))]: an instance of
    [Exception] is handed to the handler, any other [BaseException] passes
    through.  No [try] block of the sources calls [context.abort], so only
    [Raise] reaches a handler. *)
Definition try_except {S A} (body : M S A) (handler : string -> M S A) : M S A :=
  fun s =>
    match body s with
    | (Raise (Exception e), s') => handler e s'
    | r => r
    end.

(** [context.abort(code, details)] terminates the call: it does not return. *)
Definition context_abort {S A} (code : StatusCode) (details : string) : M S A :=
  fun s => (Abort code details, s).

(** A call into a collaborator with state [T] inside [S]: it answers with
    the new collaborator state or raises. *)
Definition call {S T} (get : S -> T) (set : T -> S -> S) (f : T -> raised + T) : M S unit :=
  fun s =>
    match f (get s) with
    | inr t => (Return tt, set t s)
    | inl e => (Raise e, s)
    end.

(** The [structlog] logger, as far as the handlers use it. *)
Class Logger (L : Type) := {
  debug : string -> L -> raised + L;
  error : string -> string -> L -> raised + L
}.

(** [modelrepo.repository.ModelRepository], as far as the handler uses it:
    [count({})] and [create({"timestamp": t})]. *)
Class ModelRepository (R : Type) := {
  count : R -> raised + Z;
  create : Z -> R -> raised + R
}.

(** *** validators/common.py *)
Definition validate_less_than {S} (n less_than : Z) (code : StatusCode)
    (message : string) : M S unit :=
  if less_than <=? n then context_abort code message else mret tt.

(** *** services/template_service.py *)
Module Plain.
Section Service.
Context {L : Type} `{Logger L}.

Definition log (f : L -> raised + L) : M L unit := call id (fun l _ => l) f.

Definition HealthCheck (request : HealthCheckRequest) : M L HealthCheckResponse :=
  try_except
    (log (debug "Health check requested");;
     mret {| status := SERVING; message := "Service is healthy" |})
    (fun e =>
       log (error "Health check failed" e);;
       mret {| status := NOT_SERVING; message := "Service is unhealthy: " +:+ e |}).
End Service.
End Plain.

(** *** template_service.py *)
Module Repo.
Section Service.
Context {L R : Type} `{Logger L} `{ModelRepository R}.

Record TemplateService := {
  _logger : L;
  _health_check_repository : R
}.

Definition log (f : L -> raised + L) : M TemplateService unit :=
  call _logger
    (fun l s => {| _logger := l; _health_check_repository := _health_check_repository s |})
    f.

Definition repository_count : M TemplateService Z :=
  fun s =>
    match count (_health_check_repository s) with
    | inr n => (Return n, s)
    | inl e => (Raise e, s)
    end.

Definition repository_create (timestamp : Z) : M TemplateService unit :=
  call _health_check_repository
    (fun r s => {| _logger := _logger s; _health_check_repository := r |})
    (create timestamp).

(** [now] is the value of [datetime.now()] at this call. *)
Definition HealthCheck (now : Z) (request : HealthCheckRequest)
  : M TemplateService HealthCheckResponse :=
  existing_checks ← repository_count;
  validate_less_than existing_checks 3 RESOURCE_EXHAUSTED
    "You've exceeded the maximum number of health checks.";;
  try_except
    (log (debug "Health check requested");;
     repository_create now;;
     log (debug "Created health check record");;
     mret {| status := SERVING; message := "Service is healthy" |})
    (fun e =>
       log (error "Health check failed" e);;
       mret {| status := NOT_SERVING; message := "Service is unhealthy: " +:+ e |}).
End Service.
Arguments TemplateService : clear implicits.
End Repo.

(** *** Sample collaborators *)

(** A logger that records its lines and never fails. *)
Inductive line := DebugLine (msg : string) | ErrorLine (msg err : string).

Global Instance recording_logger : Logger (list line) := {
  debug m l := inr (l ++ [DebugLine m]);
  error m e l := inr (l ++ [ErrorLine m e])
}.

(** The in-memory repository: the stored timestamps. *)
Inductive InMemory := Records (rows : list Z).

Global Instance in_memory_repository : ModelRepository InMemory := {
  count r := let 'Records rows := r in inr (Z.of_nat (length rows));
  create t r := let 'Records rows := r in inr (Records (rows ++ [t]))
}.

(** A repository whose backend cannot be reached. *)
Inductive Unreachable := NoBackend.

Global Instance unreachable_repository : ModelRepository Unreachable := {
  count _ := inl (Exception "connection refused");
  create _ _ := inl (Exception "connection refused")
}.

(** A logger whose [debug] raises, as patched in the unit test. *)
Inductive BrokenDebug := BrokenLog (errors : list line).

Global Instance broken_debug_logger : Logger BrokenDebug := {
  debug _ _ := inl (Exception "Test error");
  error m e l := let 'BrokenLog es := l in inr (BrokenLog (es ++ [ErrorLine m e]))
}.

(** The two responses the handlers build. *)
Definition healthy : HealthCheckResponse :=
  {| status := SERVING; message := "Service is healthy" |}.

Definition unhealthy (e : string) : HealthCheckResponse :=
  {| status := NOT_SERVING; message := "Service is unhealthy: " +:+ e |}.

Definition exhausted : string := "You've exceeded the maximum number of health checks.".

(** Where the [try] block of the repository-backed handler raises: [x] is
    what is raised and [at] the state of the collaborators at that point.
    The block logs, creates the record and logs again. *)
Definition raised_in_try {L R} `{Logger L} `{ModelRepository R}
    (now : Z) (s : Repo.TemplateService L R) (x : raised)
    (at_raise : Repo.TemplateService L R) : Prop :=
  (debug "Health check requested" (Repo._logger s) = inl x /\ at_raise = s)
  \/ exists l1,
       debug "Health check requested" (Repo._logger s) = inr l1
       /\ ((create now (Repo._health_check_repository s) = inl x
            /\ at_raise = {| Repo._logger := l1;
                             Repo._health_check_repository :=
                               Repo._health_check_repository s |})
           \/ exists r1,
                create now (Repo._health_check_repository s) = inr r1
                /\ debug "Created health check record" l1 = inl x
                /\ at_raise = {| Repo._logger := l1;
                                 Repo._health_check_repository := r1 |}).

(** The reading of the specification under which no exception ever leaves
    a handler, whatever its collaborators do. *)
Definition handler_never_raises : Prop :=
  (forall (L : Type) (HL : Logger L) (request : HealthCheckRequest) (l : L) (e : raised),
      (Plain.HealthCheck request l).1 <> Raise e)
  /\ (forall (L R : Type) (HL : Logger L) (HR : ModelRepository R) (now : Z)
        (request : HealthCheckRequest) (s : Repo.TemplateService L R) (e : raised),
      (Repo.HealthCheck now request s).1 <> Raise e).

(** A logger whose [debug] is interrupted from the keyboard. *)
Inductive Interrupted := InterruptedLog.

Global Instance interrupted_logger : Logger Interrupted := {
  debug _ _ := inl (BaseException "KeyboardInterrupt");
  error _ _ l := inr l
}.

(** *** Further vocabulary for the repository-backed handler *)

(** Calls of the handler one after the other, the i-th made at the i-th
    time of [nows]. *)
Fixpoint health_checks {L R} `{Logger L} `{ModelRepository R}
    (nows : list Z) (s : Repo.TemplateService L R)
  : list (outcome HealthCheckResponse) * Repo.TemplateService L R :=
  match nows with
  | [] => ([], s)
  | now :: rest =>
      let (o, s1) := Repo.HealthCheck now EmptyRequest s in
      let (os, s2) := health_checks rest s1 in
      (o :: os, s2)
  end.

(** A logger that fails on the line written after a record is created. *)
Inductive Picky := PickyLog (lines : list line).

Global Instance picky_logger : Logger Picky := {
  debug m l :=
    let 'PickyLog ls := l in
    if String.eqb m "Created health check record"
    then inl (Exception "disk full")
    else inr (PickyLog (ls ++ [DebugLine m]));
  error m e l := let 'PickyLog ls := l in inr (PickyLog (ls ++ [ErrorLine m e]))
}.

End Handler.

(* ===================================================================== *)
(** ** Process entry: [setup_logging], [main] and [run] of main.py        *)
(* ===================================================================== *)

Module Entry.
Import Config.

(** *** setup_logging *)

Inductive processor :=
| filter_by_level
| add_logger_name
| add_log_level
| PositionalArgumentsFormatter
| TimeStamper (fmt : string)
| StackInfoRenderer
| format_exc_info
| UnicodeDecoder
| JSONRenderer
| ConsoleRenderer.

Inductive context_class_t := dict.
Inductive logger_factory_t := LoggerFactory.
Inductive wrapper_class_t := BoundLogger.

(** The keyword arguments of [structlog.configure]. *)
Record structlog_configure := {
  processors : list processor;
  context_class : context_class_t;
  logger_factory : logger_factory_t;
  wrapper_class : wrapper_class_t;
  cache_logger_on_first_use : bool
}.

(** The level names [logging] has registered when the program starts. *)
Definition level_names : list string :=
  ["CRITICAL"; "FATAL"; "ERROR"; "WARN"; "WARNING"; "INFO"; "DEBUG"; "NOTSET"].

Definition known_level (l : string) : bool := existsb (String.eqb l) level_names.

(** The [ValueError] of [logging] for a level name that is not registered. *)
Inductive ValueError := UnknownLevel (level : string).

(** [logging.basicConfig(level=l)]: when the root logger has no handler
    yet it installs one and sets the level, which has to be a registered
    name; when the root logger already has handlers it does nothing.  The
    result is the level set on the root logger, if any. *)
Definition basicConfig (root_has_handlers : bool) (l : string)
  : ValueError + option string :=
  if root_has_handlers then inr None
  else if known_level l then inr (Some l)
  else inl (UnknownLevel l).

(** What [setup_logging] leaves behind: the level [logging.basicConfig] set
    on the root logger and the call of [structlog.configure]. *)
Record logging_setup := {
  root_level : option string;
  configure : structlog_configure
}.

(** [setup_logging]: [logging.basicConfig] first, whose exception leaves
    the function before [structlog.configure] is reached. *)
Definition setup_logging (root_has_handlers : bool) (config : LoggingConfig)
  : ValueError + logging_setup :=
  match basicConfig root_has_handlers (level config) with
  | inl e => inl e
  | inr applied =>
      inr {| root_level := applied;
             configure :=
               if String.eqb (format config) "json"
               then {| processors :=
                         [filter_by_level; add_logger_name; add_log_level;
                          PositionalArgumentsFormatter; TimeStamper "iso";
                          StackInfoRenderer; format_exc_info; UnicodeDecoder;
                          JSONRenderer];
                       context_class := dict;
                       logger_factory := LoggerFactory;
                       wrapper_class := BoundLogger;
                       cache_logger_on_first_use := true |}
               else {| processors :=
                         [filter_by_level; add_logger_name; add_log_level;
                          PositionalArgumentsFormatter; TimeStamper "iso";
                          StackInfoRenderer; format_exc_info; UnicodeDecoder;
                          ConsoleRenderer];
                       context_class := dict;
                       logger_factory := LoggerFactory;
                       wrapper_class := BoundLogger;
                       cache_logger_on_first_use := true |} |}
  end.

(** *** main and run *)

(** The exceptions the entry points tell apart: [KeyboardInterrupt] and
    [SystemExit] are not caught by [except Exception]. *)
Inductive exception :=
| KeyboardInterrupt
| SystemExit (code : Z)
| Exception (msg : string).

(** How a statement or an awaited call ends: normally, or by raising. *)
Definition completion := option exception.

(** What [main] and [run] do that can be observed. *)
Inductive action :=
| Info (msg : string)
| Error (msg error : string)
| LogException (e : string)
| AwaitStart
| AwaitStop
| Print (text : string).

(** How the collaborators of [main] behave: the statements before the
    [try] block as a whole (container, wiring, logging setup, construction
    of the server, signal handlers; their own actions are not recorded),
    [grpc_server.start()] and [grpc_server.stop()]. *)
Record behaviour := {
  before_try : completion;
  start_result : completion;
  stop_result : completion
}.

(** [main]: the [try] block with its two [except] clauses, then the
    [finally] clause, which runs in every case and whose exception, if
    any, replaces the pending one. *)
Definition main (b : behaviour) : list action * completion :=
  match before_try b with
  | Some x => ([], Some x)
  | None =>
      let '(tried, pending) :=
        match start_result b with
        | None => ([AwaitStart], None)
        | Some KeyboardInterrupt =>
            ([AwaitStart; Info "Received keyboard interrupt"], None)
        | Some (Exception e) =>
            ([AwaitStart; Error "Application error" e; LogException e],
             Some (SystemExit 1))
        | Some (SystemExit code) => ([AwaitStart], Some (SystemExit code))
        end in
      match stop_result b with
      | None => (tried ++ [AwaitStop; Info "Application shutdown complete"], pending)
      | Some x => (tried ++ [AwaitStop], Some x)
      end
  end.

(** [run]: [None] when it returns, [Some code] when it leaves through
    [sys.exit(code)] or lets a [SystemExit] pass. *)
Definition run (b : behaviour) : list action * option Z :=
  let (acts, c) := main b in
  match c with
  | None => (acts, None)
  | Some KeyboardInterrupt => (acts ++ [Print "Application interrupted by user"], Some 0)
  | Some (Exception e) =>
      (acts ++ [Print ("Application failed to start: " +:+ e)], Some 1)
  | Some (SystemExit code) => (acts, Some code)
  end.


Definition is_AwaitStart (a : action) : bool :=
  match a with AwaitStart => true | _ => false end.

Definition is_AwaitStop (a : action) : bool :=
  match a with AwaitStop => true | _ => false end.

Definition count (f : action -> bool) (acts : list action) : nat :=
  length (filter (fun a => f a = true) acts).



End Entry.

(* ===================================================================== *)
(** ** Facts about the configuration                                      *)
(* ===================================================================== *)

Module ConfigFacts.
Import Config Lifecycle.

Section WithCoercion.
Variable str_to_int : string -> option Z.

Lemma validate_int_gt_pass field d bound z :
  bound < z -> validate_int_gt str_to_int field d bound (Some (PyInt z)) = inr z.
Proof.
  intros Hz. unfold validate_int_gt; simpl.
  destruct (bound <? z) eqn:E; [reflexivity | apply Z.ltb_ge in E; lia].
Qed.

Lemma validate_int_gt_fail field d bound z :
  z <= bound ->
  validate_int_gt str_to_int field d bound (Some (PyInt z))
  = inl [greater_than field bound z].
Proof.
  intros Hz. unfold validate_int_gt; simpl.
  destruct (bound <? z) eqn:E; [apply Z.ltb_lt in E; lia | reflexivity].
Qed.

(** C4, as amended: the port field carries no range constraint.  Giving
    any integer as the port, inside 1..65535 or not, to arguments that
    construct a configuration constructs the same configuration with
    that port; a string port is refused exactly when it is not an
    integer literal. *)
Theorem port_accepts_every_integer (kw : ServerKwargs)
    (environ : list (string * string)) (c : ServerConfig) (p : Z) :
  ServerConfig_new str_to_int kw environ = inr c ->
  ServerConfig_new str_to_int (with_port (PyInt p) kw) environ = inr (set_port p c)
  /\ forall s,
       ServerConfig_new str_to_int (with_port (PyStr s) kw) environ
       = match str_to_int s with
         | Some q => inr (set_port q c)
         | None => inl [int_parsing "port" s]
         end.
Proof.
  unfold ServerConfig_new, with_port; cbn [kw_host kw_port kw_max_workers kw_grace_period].
  intros Hc.
  destruct (validate_str "host" "0.0.0.0" _) as [eh|h]; [discriminate Hc|].
  destruct (validate_int str_to_int "port" 50051 _) as [ep|p0].
  { destruct (validate_int_gt _ _ _ _ _), (validate_int _ "grace_period" _ _);
      discriminate Hc. }
  destruct (validate_int_gt str_to_int "max_workers" 10 0 _) as [ew|w].
  { destruct (validate_int _ "grace_period" _ _); discriminate Hc. }
  destruct (validate_int str_to_int "grace_period" 30 _) as [eg|g]; [discriminate Hc|].
  injection Hc as <-. split; [reflexivity|].
  intros s. cbn [field_input validate_int].
  destruct (str_to_int s); reflexivity.
Qed.

(** C5: a worker count of zero or less is refused when the settings are
    constructed, so that no server object exists that could bind; a
    positive worker count is kept as given. *)
Theorem max_workers_must_be_positive (kw : ServerKwargs)
    (environ : list (string * string)) (w : Z) :
  (w <= 0 ->
     exists e,
       ServerConfig_new str_to_int (with_max_workers (PyInt w) kw) environ = inl e
       /\ In (greater_than "max_workers" 0 w) e
       /\ GrpcServer_init str_to_int (with_max_workers (PyInt w) kw) environ = inl e)
  /\ (0 < w ->
      forall c, ServerConfig_new str_to_int kw environ = inr c ->
        ServerConfig_new str_to_int (with_max_workers (PyInt w) kw) environ
        = inr (set_max_workers w c)).
Proof.
  split.
  - intros Hw.
    unfold GrpcServer_init, ServerConfig_new, with_max_workers;
      cbn [kw_host kw_port kw_max_workers kw_grace_period field_input].
    rewrite (validate_int_gt_fail "max_workers" 10 0 w Hw).
    destruct (validate_str "host" "0.0.0.0" _) as [eh|h];
      destruct (validate_int str_to_int "port" 50051 _) as [ep|p0];
      destruct (validate_int str_to_int "grace_period" 30 _) as [eg|g];
      eexists; (split; [reflexivity|]); (split; [|reflexivity]);
      cbn [errors]; rewrite ?in_app_iff; simpl; tauto.
  - intros Hw c.
    unfold ServerConfig_new, with_max_workers;
      cbn [kw_host kw_port kw_max_workers kw_grace_period].
    intros Hc.
    destruct (validate_str "host" "0.0.0.0" _) as [eh|h]; [discriminate Hc|].
    destruct (validate_int str_to_int "port" 50051 _) as [ep|p0].
    { destruct (validate_int_gt _ _ _ _ _), (validate_int _ "grace_period" _ _);
        discriminate Hc. }
    destruct (validate_int_gt str_to_int "max_workers" 10 0 _) as [ew|w0].
    { destruct (validate_int _ "grace_period" _ _); discriminate Hc. }
    destruct (validate_int str_to_int "grace_period" 30 _) as [eg|g]; [discriminate Hc|].
    injection Hc as <-. cbn [field_input].
    rewrite (validate_int_gt_pass "max_workers" 10 0 w Hw). reflexivity.
Qed.




End WithCoercion.
(** C4, as the specification words it, fails: port 70000 is accepted. *)
Lemma port_range_not_enforced : ~ port_range_enforced.
Proof.
  intros Hclaim.
  destruct (Hclaim decimal 70000) as [e He]; [lia|].
  vm_compute in He. discriminate He.
Qed.

Lemma port_accepts_every_integer_witness :
  ServerConfig_new decimal no_server_kwargs [] = inr default_config
  /\ ServerConfig_new decimal (with_port (PyInt 70000) no_server_kwargs) []
     = inr (set_port 70000 default_config)
  /\ ServerConfig_new decimal (with_port (PyStr "invalid") no_server_kwargs) []
     = inl [int_parsing "port" "invalid"].
Proof.
  assert (Hd : ServerConfig_new decimal no_server_kwargs [] = inr default_config)
    by (vm_compute; reflexivity).
  destruct (port_accepts_every_integer decimal no_server_kwargs [] default_config 70000 Hd)
    as [Hint Hstr].
  split; [exact Hd|]. split; [exact Hint|].
  exact (Hstr "invalid").
Defined.

Lemma max_workers_must_be_positive_witness :
  (exists e,
     ServerConfig_new decimal (with_max_workers (PyInt (-1)) no_server_kwargs) [] = inl e
     /\ In (greater_than "max_workers" 0 (-1)) e
     /\ GrpcServer_init decimal (with_max_workers (PyInt (-1)) no_server_kwargs) [] = inl e)
  /\ ServerConfig_new decimal (with_max_workers (PyInt 20) no_server_kwargs) []
     = inr (set_max_workers 20 default_config).
Proof.
  split.
  - apply (max_workers_must_be_positive decimal no_server_kwargs [] (-1)). lia.
  - apply (max_workers_must_be_positive decimal no_server_kwargs [] 20); [lia|].
    vm_compute; reflexivity.
Defined.


End ConfigFacts.

(* ===================================================================== *)
(** ** Facts about the server lifecycle                                   *)
(* ===================================================================== *)

Module LifecycleFacts.
Import Config Lifecycle.

Lemma drain_count_snoc tr e :
  drain_count (tr ++ [e]) = (drain_count tr + if is_drain e then 1 else 0)%nat.
Proof.
  unfold drain_count. rewrite filter_app, length_app.
  destruct e; reflexivity.
Qed.

Ltac task_cases H :=
  match type of H with
  | run_task ?r ?p ?s = Some _ =>
      destruct p, r; simpl in H;
      unfold start_call, start_resume, start_wake, stop_call, stop_resume in H;
      repeat case_match; simplify_eq; simpl in *
  end.

Lemma run_task_latch_mono r p s p' s' :
  run_task r p s = Some (p', s') ->
  _shutdown_event (srv s) = true -> _shutdown_event (srv s') = true.
Proof. intros H E. task_cases H; auto. Qed.

Lemma run_task_returns_latched r p s s' :
  run_task r p s = Some (StartReturn, s') -> _shutdown_event (srv s') = true.
Proof. intros H. task_cases H; auto. Qed.

Lemma run_task_drains_mono r p s p' s' :
  run_task r p s = Some (p', s') ->
  (drain_count (trace s) <= drain_count (trace s'))%nat.
Proof.
  intros H. task_cases H; rewrite ?drain_count_snoc; simpl; lia.
Qed.

Lemma run_task_sets_latch r p s p' s' :
  run_task r p s = Some (p', s') ->
  _shutdown_event (srv s) = false -> _shutdown_event (srv s') = true ->
  p = StopCall /\ (1 <= drain_count (trace s'))%nat.
Proof.
  intros H E E'. task_cases H; try congruence;
    (split; [reflexivity|]); rewrite ?drain_count_snoc; simpl; lia.
Qed.

Lemma exec_preserves_invariant l sys sys' :
  exec l sys = Some sys' -> shutdown_invariant sys -> shutdown_invariant sys'.
Proof.
  unfold shutdown_invariant, latch, drains.
  intros H [Hd Hr]. destruct l as [| |n|i r]; simpl in H.
  - injection H as <-. simpl. split; [exact Hd|].
    intros i [[_ Hi]|[_ Hi]]%lookup_snoc_Some; [eauto|discriminate].
  - injection H as <-. simpl. split; [exact Hd|].
    intros i [[_ Hi]|[_ Hi]]%lookup_snoc_Some; [eauto|discriminate].
  - injection H as <-. simpl. rewrite drain_count_snoc. simpl. split.
    + intros E. specialize (Hd E). lia.
    + intros i [[_ Hi]|[_ Hi]]%lookup_snoc_Some; [eauto|discriminate].
  - destruct (tasks sys !! i) as [p|] eqn:Hp; [|discriminate].
    destruct (run_task r p (st sys)) as [[p' s']|] eqn:Ht; [|discriminate].
    injection H as <-. simpl. split.
    + intros E'. destruct (_shutdown_event (srv (st sys))) eqn:E.
      * pose proof (run_task_drains_mono _ _ _ _ _ Ht). specialize (Hd eq_refl). lia.
      * apply (run_task_sets_latch _ _ _ _ _ Ht E E').
    + intros j [(-> & -> & _)|[_ Hj]]%list_lookup_insert_Some.
      * apply (run_task_returns_latched _ _ _ _ Ht).
      * apply (run_task_latch_mono _ _ _ _ _ Ht). eauto.
Qed.

Lemma run_preserves_invariant ls : forall sys sys',
  run ls sys = Some sys' -> shutdown_invariant sys -> shutdown_invariant sys'.
Proof.
  induction ls as [|l ls IH]; simpl; intros sys sys' H Hinv.
  - injection H as <-. exact Hinv.
  - destruct (exec l sys) as [sys1|] eqn:Hl; [|discriminate].
    eapply IH; [exact H|]. eapply exec_preserves_invariant; eauto.
Qed.

Lemma init_invariant c : shutdown_invariant (init c).
Proof. split; [discriminate|]. intros i Hi. discriminate. Qed.

Lemma exec_latch_mono l sys sys' :
  exec l sys = Some sys' -> latch sys = true -> latch sys' = true.
Proof.
  unfold latch. intros H E. destruct l as [| |n|i r]; simpl in H.
  - injection H as <-. exact E.
  - injection H as <-. exact E.
  - injection H as <-. exact E.
  - destruct (tasks sys !! i) as [p|] eqn:Hp; [|discriminate].
    destruct (run_task r p (st sys)) as [[p' s']|] eqn:Ht; [|discriminate].
    injection H as <-. simpl. eapply run_task_latch_mono; eauto.
Qed.

Lemma exec_sets_latch l sys sys' :
  exec l sys = Some sys' -> latch sys = false -> latch sys' = true ->
  exists j r, l = Resume j r /\ tasks sys !! j = Some StopCall.
Proof.
  unfold latch. intros H E E'. destruct l as [| |n|i r]; simpl in H.
  - injection H as <-. simpl in E'. congruence.
  - injection H as <-. simpl in E'. congruence.
  - injection H as <-. simpl in E'. congruence.
  - destruct (tasks sys !! i) as [p|] eqn:Hp; [|discriminate].
    destruct (run_task r p (st sys)) as [[p' s']|] eqn:Ht; [|discriminate].
    injection H as <-. simpl in E'.
    destruct (run_task_sets_latch _ _ _ _ _ Ht E E') as [-> _].
    exists i, r. split; [reflexivity | exact Hp].
Qed.

(** Running the coroutine that was spawned last. *)
Lemma exec_last p r s (l : list pc) :
  exec (Resume (length l) r) {| st := s; tasks := l ++ [p] |}
  = match run_task r p s with
    | Some (p', s') => Some {| st := s'; tasks := l ++ [p'] |}
    | None => None
    end.
Proof.
  unfold exec; simpl.
  rewrite list_lookup_middle by reflexivity.
  destruct (run_task r p s) as [[p' s']|]; [|reflexivity].
  rewrite insert_app_r_alt by lia. rewrite Nat.sub_diag. reflexivity.
Qed.

Lemma exec_spawned p r sys :
  exec (Resume (length (tasks sys)) r) (spawn p sys)
  = match run_task r p (st sys) with
    | Some (p', s') => Some {| st := s'; tasks := tasks sys ++ [p'] |}
    | None => None
    end.
Proof. apply exec_last. Qed.

(** A [start] called while the shutdown event is unset, answered by a
    transport that works, ends up parked on the event. *)
Lemma start_reaches_wait sys :
  latch sys = false ->
  exists sys2,
    run [InvokeStart; Resume (length (tasks sys)) Done; Resume (length (tasks sys)) Done] sys
    = Some sys2
    /\ tasks sys2 = tasks sys ++ [StartAwaitEvent]
    /\ latch sys2 = false
    /\ drains sys2 = drains sys
    /\ forall r, exec (Resume (length (tasks sys)) r) sys2 = None.
Proof.
  unfold latch, drains. intros E. unfold run.
  change (exec InvokeStart sys) with (Some (spawn StartCall sys)). cbv iota.
  rewrite exec_spawned.
  cbn [run_task start_call]. rewrite exec_last.
  cbn [run_task start_resume emit set_server allocate srv _shutdown_event].
  rewrite E. eexists; split; [reflexivity|].
  cbn [tasks st srv trace emit set_server allocate _shutdown_event].
  rewrite !drain_count_snoc. simpl.
  repeat split; [exact E | lia |].
  intros r. rewrite list_lookup_middle by reflexivity.
  simpl. unfold start_wake. simpl. rewrite E. reflexivity.
Qed.

Lemma stop_to_completion_drains sys h :
  server sys = Some h ->
  exists sys', stop_to_completion sys = Some sys'
    /\ drains sys' = S (drains sys)
    /\ latch sys' = true
    /\ server sys' = Some h.
Proof.
  unfold server, latch, drains, stop_to_completion. intros Hs.
  rewrite exec_spawned. simpl. unfold stop_call. rewrite Hs. simpl.
  rewrite list_lookup_middle by reflexivity. simpl.
  eexists; split; [reflexivity|]. simpl.
  rewrite !drain_count_snoc. simpl. repeat split; [lia | exact Hs].
Qed.

Lemma stop_repeatedly_drains n : forall sys h,
  server sys = Some h ->
  exists sys', stop_repeatedly n sys = Some sys'
    /\ drains sys' = (drains sys + n)%nat
    /\ server sys' = Some h.
Proof.
  induction n as [|n IH]; intros sys h Hs; simpl.
  - exists sys. repeat split; [lia | exact Hs].
  - destruct (stop_to_completion_drains sys h Hs) as (sys1 & -> & Hd & _ & Hs1).
    destruct (IH sys1 h Hs1) as (sys' & Hrun & Hd' & Hs').
    exists sys'. repeat split; [exact Hrun | lia | exact Hs'].
Qed.

(** C1, as amended: [stop] is guarded only by the presence of a transport
    server.  Every [stop] that runs while [_server] is set, whether called
    directly or scheduled by [handle_signal] and whether or not an earlier
    [stop] ran, logs, sets the shutdown event and asks the transport once
    more to stop with the grace period; [n] calls ask for [n] drains.  What
    is idempotent is the shutdown event: once set it stays set. *)
Theorem stop_drains_on_every_call (sys : system) (i : nat) (h : handle) (r : reply) :
  tasks sys !! i = Some StopCall ->
  server sys = Some h ->
  (exists sys',
      exec (Resume i r) sys = Some sys'
      /\ trace (st sys')
         = trace (st sys)
           ++ [LogInfo "Stopping gRPC server";
               ServerStop h (grace_period (_config (srv (st sys))))]
      /\ drains sys' = S (drains sys)
      /\ latch sys' = true
      /\ server sys' = Some h
      /\ tasks sys' = <[i := StopAwaitStop]> (tasks sys))
  /\ (forall n, exists sys',
        stop_repeatedly n sys = Some sys' /\ drains sys' = (drains sys + n)%nat)
  /\ (forall l sys', exec l sys = Some sys' -> latch sys = true -> latch sys' = true).
Proof.
  intros Hi Hs. split; [|split].
  - unfold server, latch, drains in *. unfold exec. rewrite Hi. simpl.
    unfold stop_call. rewrite Hs. simpl.
    eexists; split; [reflexivity|]. simpl.
    split; [rewrite <- app_assoc; reflexivity|].
    rewrite !drain_count_snoc. simpl.
    repeat split; [lia | exact Hs].
  - intros n. destruct (stop_repeatedly_drains n sys h Hs) as (sys' & H1 & H2 & _).
    exists sys'. split; assumption.
  - intros l sys'. apply exec_latch_mono.
Qed.

(** C1, as the specification words it, fails, on the path [main] itself
    takes: a signal schedules a [stop], which drains and releases the
    parked [start]; the [stop] that [main] then calls in its [finally]
    clause, on a server that has already stopped, drains a second time. *)
Lemma second_stop_drains_again : ~ drain_runs_at_most_once.
Proof.
  intros Hclaim.
  pose proof (Hclaim default_config
    [InvokeStart; Resume 0 Done; Resume 0 Done;
     Signal 2; Resume 1 Done; Resume 1 Done; Resume 0 Done;
     InvokeStop; Resume 2 Done; Resume 2 Done]%nat _ eq_refl) as H.
  vm_compute in H. lia.
Qed.

Lemma stop_drains_on_every_call_witness :
  exists sys sys',
    run [InvokeStart; Resume 0 Done; Resume 0 Done;
         InvokeStop; Resume 1 Done; Resume 1 Done; Signal 15]%nat (init default_config)
    = Some sys
    /\ drains sys = 1%nat
    /\ exec (Resume 2 Done) sys = Some sys'
    /\ drains sys' = 2%nat.
Proof.
  eexists. 
  destruct (stop_drains_on_every_call
              {| st := {| srv := {| _config := default_config; _server := Some O;
                                    _shutdown_event := true |};
                          trace := [LogInfo "Starting gRPC server"; AioServer (Some O) 10;
                                    AddServicer O; EnableReflection O;
                                    AddInsecurePort O "0.0.0.0:50051"; ServerStart O;
                                    LogInfo "gRPC server started";
                                    LogInfo "Stopping gRPC server"; ServerStop O 30;
                                    LogInfo "gRPC server stopped";
                                    LogInfo "Received shutdown signal"];
                          fresh := 1%nat |};
                 tasks := [StartAwaitEvent; StopReturn; StopCall] |}
              2%nat O Done eq_refl eq_refl) as [(sys' & Hexec & _ & Hd & _) _].
  exists sys'. split; [vm_compute; reflexivity|].
  split; [reflexivity|]. split; [exact Hexec | exact Hd].
Defined.

(** C2, as amended: [start] has no precondition on the state of the server
    and raises no error of its own.  Called on any instance, also one
    already serving, it creates a further transport server, overwrites
    [_server] with it, registers the handler and reflection, binds the
    configured address and starts it; it neither stops the earlier
    transport nor touches the shutdown event or the other coroutines, so a
    first [start] stays parked.  The only exceptions that leave [start] are
    those the transport raises. *)
Theorem start_has_no_state_guard (sys : system) (j : nat) :
  tasks sys !! j = Some StartCall ->
  (exists sys',
      exec (Resume j Done) sys = Some sys'
      /\ tasks sys' = <[j := StartAwaitStart]> (tasks sys)
      /\ server sys' = Some (fresh (st sys))
      /\ latch sys' = latch sys
      /\ drains sys' = drains sys
      /\ trace (st sys')
         = let h := fresh (st sys) in
           let cfg := _config (srv (st sys)) in
           trace (st sys)
           ++ [LogInfo "Starting gRPC server"; AioServer (Some h) (max_workers cfg);
               AddServicer h; EnableReflection h;
               AddInsecurePort h (host cfg +:+ ":" +:+ pretty (port cfg));
               ServerStart h])
  /\ (forall r e sys',
        exec (Resume j r) sys = Some sys' ->
        tasks sys' !! j = Some (StartRaise e) -> r = Raises e).
Proof.
  intros Hj. split.
  - unfold server, latch, drains, exec. rewrite Hj. simpl.
    eexists; split; [reflexivity|]. simpl.
    rewrite !drain_count_snoc. simpl.
    repeat split; [lia | rewrite <- !app_assoc; reflexivity].
  - intros r e sys'. unfold exec. rewrite Hj. simpl.
    assert (Hlt : (j < length (tasks sys))%nat) by (eapply lookup_lt_Some; eauto).
    unfold start_call.
    destruct r; simpl; intros H; injection H as <-; simpl;
      rewrite list_lookup_insert_eq by exact Hlt; congruence.
Qed.

(** C2, as the specification words it, fails: with a first [start] parked
    on the shutdown event, a second [start] on the same server goes on to
    start a second transport instead of failing. *)
Lemma second_start_not_rejected : ~ second_start_rejected.
Proof.
  intros Hclaim.
  destruct (Hclaim default_config
              [InvokeStart; Resume 0 Done; Resume 0 Done; InvokeStart]%nat
              _ 0%nat 1%nat Done _ eq_refl eq_refl eq_refl eq_refl) as [e He].
  vm_compute in He. discriminate He.
Qed.

Lemma start_has_no_state_guard_witness :
  exists sys sys',
    run [InvokeStart; Resume 0 Done; Resume 0 Done; InvokeStart]%nat (init default_config)
    = Some sys
    /\ tasks sys = [StartAwaitEvent; StartCall]
    /\ exec (Resume 1 Done) sys = Some sys'
    /\ tasks sys' = [StartAwaitEvent; StartAwaitStart]
    /\ server sys' = Some 1%nat
    /\ drains sys' = 0%nat.
Proof.
  eexists.
  destruct (start_has_no_state_guard
              {| st := {| srv := {| _config := default_config; _server := Some O;
                                    _shutdown_event := false |};
                          trace := [LogInfo "Starting gRPC server"; AioServer (Some O) 10;
                                    AddServicer O; EnableReflection O;
                                    AddInsecurePort O "0.0.0.0:50051"; ServerStart O;
                                    LogInfo "gRPC server started"];
                          fresh := 1%nat |};
                 tasks := [StartAwaitEvent; StartCall] |}
              1%nat eq_refl) as [(sys' & Hexec & Ht & Hs & _ & Hd & _) _].
  exists sys'. split; [vm_compute; reflexivity|].
  split; [reflexivity|]. split; [exact Hexec|].
  split; [exact Ht|]. split; [exact Hs | exact Hd].
Defined.

(** C3: once the transport has started, [start] parks on the shutdown
    event and cannot run again while the event is unset; whenever a
    [start] has returned after its wait the event is set and a drain was
    requested; the event is set by no step other than a [stop] coroutine
    beginning to run; and such a [stop], on a server whose transport
    exists, sets it and thereby lets the parked [start] return. *)
Theorem start_parks_until_shutdown (c : ServerConfig) (ls : list label)
    (sys : system) (i : nat) :
  run ls (init c) = Some sys ->
  (tasks sys !! i = Some StartReturn -> latch sys = true /\ (1 <= drains sys)%nat)
  /\ (tasks sys !! i = Some StartAwaitStart -> latch sys = false ->
      exists sys', exec (Resume i Done) sys = Some sys'
                   /\ tasks sys' !! i = Some StartAwaitEvent)
  /\ (tasks sys !! i = Some StartAwaitEvent -> latch sys = false ->
      forall r, exec (Resume i r) sys = None)
  /\ (forall l sys', exec l sys = Some sys' -> latch sys = false -> latch sys' = true ->
      exists j r, l = Resume j r /\ tasks sys !! j = Some StopCall)
  /\ (tasks sys !! i = Some StartAwaitEvent ->
      forall j h r, tasks sys !! j = Some StopCall -> server sys = Some h ->
      exists sys' sys'',
        exec (Resume j r) sys = Some sys' /\ latch sys' = true
        /\ exec (Resume i Done) sys' = Some sys''
        /\ tasks sys'' !! i = Some StartReturn).
Proof.
  intros Hrun.
  pose proof (run_preserves_invariant ls _ _ Hrun (init_invariant c)) as [Hd Hr].
  split; [|split; [|split; [|split]]].
  - intros Hi. pose proof (Hr i Hi) as E. split; [exact E | exact (Hd E)].
  - unfold latch. intros Hi E. unfold exec. rewrite Hi. simpl. rewrite E.
    eexists; split; [reflexivity|]. simpl.
    apply list_lookup_insert_eq. eapply lookup_lt_Some; eauto.
  - unfold latch. intros Hi E r. unfold exec. rewrite Hi. simpl.
    unfold start_wake. rewrite E. reflexivity.
  - intros l sys'. apply exec_sets_latch.
  - unfold latch, server. intros Hi j h r Hj Hs.
    assert (Hne : j <> i) by (intros ->; congruence).
    unfold exec at 1. rewrite Hj. simpl. unfold stop_call. rewrite Hs.
    eexists; eexists. split; [reflexivity|]. simpl. split; [reflexivity|].
    unfold exec. simpl. rewrite list_lookup_insert_ne by exact Hne. rewrite Hi. simpl.
    unfold start_wake. simpl. split; [reflexivity|]. simpl.
    apply list_lookup_insert_eq. rewrite length_insert. eapply lookup_lt_Some; eauto.
Qed.

Lemma start_parks_until_shutdown_witness :
  exists sys,
    run [InvokeStart; Resume 0 Done; Resume 0 Done;
         Signal 2; Resume 1 Done; Resume 0 Done]%nat (init default_config) = Some sys
    /\ tasks sys !! 0%nat = Some StartReturn
    /\ latch sys = true
    /\ (1 <= drains sys)%nat.
Proof.
  eexists. split; [vm_compute; reflexivity|]. split; [reflexivity|].
  apply (start_parks_until_shutdown default_config
           [InvokeStart; Resume 0 Done; Resume 0 Done;
            Signal 2; Resume 1 Done; Resume 0 Done]%nat _ 0%nat);
    reflexivity.
Defined.

(** C10: [stop] on a server whose [_server] is still [None] returns at
    once and changes nothing: the shutdown event keeps its value, nothing
    is logged and no drain is requested.  A [start] called afterwards on a
    server whose event is unset therefore binds, starts the transport and
    parks on the event. *)
Theorem stop_before_start_is_noop (sys : system) (i : nat) (r : reply) :
  tasks sys !! i = Some StopCall ->
  server sys = None ->
  let sys1 := {| st := st sys; tasks := <[i := StopReturn]> (tasks sys) |} in
  let k := length (tasks sys) in
  exec (Resume i r) sys = Some sys1
  /\ latch sys1 = latch sys
  /\ drains sys1 = drains sys
  /\ (latch sys = false ->
      exists sys2,
        run [InvokeStart; Resume k Done; Resume k Done] sys1 = Some sys2
        /\ tasks sys2 !! k = Some StartAwaitEvent
        /\ latch sys2 = false
        /\ drains sys2 = drains sys
        /\ forall r', exec (Resume k r') sys2 = None).
Proof.
  intros Hi Hs sys1 k.
  split; [|split; [reflexivity|split; [reflexivity|]]].
  - unfold server in Hs. unfold exec. rewrite Hi. simpl.
    unfold stop_call. rewrite Hs. reflexivity.
  - intros E.
    assert (Hk : k = length (tasks sys1))
      by (unfold k, sys1; simpl; rewrite length_insert; reflexivity).
    destruct (start_reaches_wait sys1 E) as (sys2 & Hrun & Ht & Hl & Hd & Hblocked).
    rewrite <- Hk in Hrun, Hblocked.
    exists sys2. split; [exact Hrun|].
    split; [rewrite Ht; apply list_lookup_middle; exact Hk|].
    split; [exact Hl|]. split; [exact Hd | exact Hblocked].
Qed.

Lemma stop_before_start_is_noop_witness :
  exists sys1 sys2,
    run [InvokeStop; Resume 0 Done]%nat (init default_config) = Some sys1
    /\ st sys1 = st (init default_config)
    /\ run [InvokeStart; Resume 1 Done; Resume 1 Done]%nat sys1 = Some sys2
    /\ tasks sys2 !! 1%nat = Some StartAwaitEvent
    /\ latch sys2 = false
    /\ drains sys2 = 0%nat.
Proof.
  destruct (stop_before_start_is_noop (spawn StopCall (init default_config)) 0%nat Done
              eq_refl eq_refl) as (Hexec & _ & _ & Hstart).
  destruct (Hstart eq_refl) as (sys2 & Hrun & Ht & Hl & Hd & _).
  exists {| st := st (init default_config); tasks := [StopReturn] |}, sys2.
  split; [vm_compute; reflexivity|].
  split; [reflexivity|]. split; [exact Hrun|].
  split; [exact Ht|]. split; [exact Hl | exact Hd].
Defined.

End LifecycleFacts.

(* ===================================================================== *)
(** ** Facts about the handlers                                           *)
(* ===================================================================== *)

Module HandlerFacts.
Import Handler.

Ltac run_handler :=
  unfold Plain.HealthCheck, Repo.HealthCheck, Plain.log, Repo.log,
    Repo.repository_count, Repo.repository_create, validate_less_than,
    try_except, context_abort, call, mbind, mret, M_bind, M_ret;
  simpl.

Section Collaborators.
Context {L R : Type} `{HL : Logger L} `{HR : ModelRepository R}.

(** C8: the plain handler answers every request with SERVING and the
    message "Service is healthy" (its one collaborator call, the debug log
    line, having gone through). *)
Theorem plain_health_check_serving (request : HealthCheckRequest) (l l' : L) :
  debug "Health check requested" l = inr l' ->
  Plain.HealthCheck request l
  = (Return {| status := SERVING; message := "Service is healthy" |}, l').
Proof. intros Hd. run_handler. rewrite Hd. reflexivity. Qed.

(** C6: the repository-backed handler counts the stored records first.  At
    three or more it aborts the call with RESOURCE_EXHAUSTED and leaves
    logger and repository as they were; below three it creates a record
    and answers SERVING. *)
Theorem health_check_fails_after_three (now : Z) (request : HealthCheckRequest)
    (s : Repo.TemplateService L R) (n : Z) :
  count (Repo._health_check_repository s) = inr n ->
  (3 <= n ->
     Repo.HealthCheck now request s = (Abort RESOURCE_EXHAUSTED exhausted, s))
  /\ (n < 3 ->
      forall l1 r1 l2,
        debug "Health check requested" (Repo._logger s) = inr l1 ->
        create now (Repo._health_check_repository s) = inr r1 ->
        debug "Created health check record" l1 = inr l2 ->
        Repo.HealthCheck now request s
        = (Return healthy, {| Repo._logger := l2; Repo._health_check_repository := r1 |})).
Proof.
  intros Hc. split.
  - intros Hn. run_handler. rewrite Hc.
    destruct (3 <=? n) eqn:E; [reflexivity | apply Z.leb_gt in E; lia].
  - intros Hn l1 r1 l2 Hd1 Hcr Hd2. run_handler. rewrite Hc.
    destruct (3 <=? n) eqn:E; [apply Z.leb_le in E; lia|].
    simpl. rewrite Hd1. simpl. rewrite Hcr. simpl. rewrite Hd2. reflexivity.
Qed.

(** C7, as amended: an instance of [Exception] raised inside the [try]
    block of a handler is answered with NOT_SERVING and the message
    "Service is unhealthy: " followed by the error text, provided the
    error log line of the [except] clause goes through; what that log
    line raises leaves the handler, and so does anything raised in the
    [try] block that is not an instance of [Exception].  The
    repository-backed handler counts the records before its [try] block:
    whatever that count raises leaves the handler, and a count of three
    or more aborts the call. *)
Theorem handler_errors_converted :
  (forall request (l : L) e,
      debug "Health check requested" l = inl (Exception e) ->
      Plain.HealthCheck request l
      = match error "Health check failed" e l with
        | inr l' => (Return (unhealthy e), l')
        | inl x => (Raise x, l)
        end)
  /\ (forall request (l : L) c,
        debug "Health check requested" l = inl (BaseException c) ->
        Plain.HealthCheck request l = (Raise (BaseException c), l))
  /\ (forall now request (s : Repo.TemplateService L R) x,
        count (Repo._health_check_repository s) = inl x ->
        Repo.HealthCheck now request s = (Raise x, s))
  /\ (forall now request (s : Repo.TemplateService L R) n,
        count (Repo._health_check_repository s) = inr n ->
        3 <= n ->
        Repo.HealthCheck now request s = (Abort RESOURCE_EXHAUSTED exhausted, s))
  /\ (forall now request (s at_raise : Repo.TemplateService L R) n e,
        count (Repo._health_check_repository s) = inr n ->
        n < 3 ->
        raised_in_try now s (Exception e) at_raise ->
        Repo.HealthCheck now request s
        = match error "Health check failed" e (Repo._logger at_raise) with
          | inr l' =>
              (Return (unhealthy e),
               {| Repo._logger := l';
                  Repo._health_check_repository :=
                    Repo._health_check_repository at_raise |})
          | inl x => (Raise x, at_raise)
          end)
  /\ (forall now request (s at_raise : Repo.TemplateService L R) n c,
        count (Repo._health_check_repository s) = inr n ->
        n < 3 ->
        raised_in_try now s (BaseException c) at_raise ->
        Repo.HealthCheck now request s = (Raise (BaseException c), at_raise)).
Proof.
  split; [|split; [|split; [|split; [|split]]]].
  - intros request l e Hd. run_handler. rewrite Hd.
    destruct (error "Health check failed" e l); reflexivity.
  - intros request l c Hd. run_handler. rewrite Hd. reflexivity.
  - intros now request s x Hc. run_handler. rewrite Hc. reflexivity.
  - intros now request s n Hc Hn. run_handler. rewrite Hc.
    destruct (3 <=? n) eqn:E; [reflexivity | apply Z.leb_gt in E; lia].
  - intros now request s at_raise n e Hc Hn Hr. run_handler. rewrite Hc.
    destruct (3 <=? n) eqn:E; [apply Z.leb_le in E; lia|]. simpl.
    destruct Hr as [[Hd1 ->]|(l1 & Hd1 & [[Hcr ->]|(r1 & Hcr & Hd2 & ->)])];
      rewrite Hd1; simpl; rewrite ?Hcr; simpl; rewrite ?Hd2; simpl;
      destruct (error "Health check failed" e _); reflexivity.
  - intros now request s at_raise n c Hc Hn Hr. run_handler. rewrite Hc.
    destruct (3 <=? n) eqn:E; [apply Z.leb_le in E; lia|]. simpl.
    destruct Hr as [[Hd1 ->]|(l1 & Hd1 & [[Hcr ->]|(r1 & Hcr & Hd2 & ->)])];
      rewrite Hd1; simpl; rewrite ?Hcr; simpl; rewrite ?Hd2; reflexivity.
Qed.

End Collaborators.

(** With the in-memory repository and a logger that works, the handler
    stores one record per call until three are stored and aborts every
    call after that. *)
Lemma in_memory_health_check (now : Z) (request : HealthCheckRequest)
    (l : list line) (rows : list Z) :
  Repo.HealthCheck now request
    {| Repo._logger := l; Repo._health_check_repository := Records rows |}
  = if 3 <=? Z.of_nat (length rows)
    then (Abort RESOURCE_EXHAUSTED exhausted,
          {| Repo._logger := l; Repo._health_check_repository := Records rows |})
    else (Return healthy,
          {| Repo._logger := l ++ [DebugLine "Health check requested";
                                   DebugLine "Created health check record"];
             Repo._health_check_repository := Records (rows ++ [now]) |}).
Proof.
  run_handler.
  destruct (3 <=? Z.of_nat (length rows)); [reflexivity|].
  simpl. rewrite <- app_assoc. reflexivity.
Qed.

Lemma plain_health_check_serving_witness :
  Plain.HealthCheck EmptyRequest ([] : list line)
  = (Return {| status := SERVING; message := "Service is healthy" |},
     [DebugLine "Health check requested"]).
Proof.
  apply (plain_health_check_serving (HL := recording_logger) EmptyRequest []). reflexivity.
Defined.

Lemma health_check_fails_after_three_witness :
  Repo.HealthCheck 7 EmptyRequest
    {| Repo._logger := ([] : list line);
       Repo._health_check_repository := Records [1; 2] |}
  = (Return healthy,
     {| Repo._logger := [DebugLine "Health check requested";
                         DebugLine "Created health check record"];
        Repo._health_check_repository := Records [1; 2; 7] |})
  /\ Repo.HealthCheck 8 EmptyRequest
       {| Repo._logger := ([] : list line);
          Repo._health_check_repository := Records [1; 2; 7] |}
     = (Abort RESOURCE_EXHAUSTED exhausted,
        {| Repo._logger := [];
           Repo._health_check_repository := Records [1; 2; 7] |}).
Proof.
  split.
  - destruct (health_check_fails_after_three (HL := recording_logger) (HR := in_memory_repository) 7 EmptyRequest
                {| Repo._logger := []; Repo._health_check_repository := Records [1; 2] |} 2
                ltac:(reflexivity)) as [_ Hbelow].
    apply (Hbelow ltac:(lia) [DebugLine "Health check requested"] (Records [1; 2; 7]));
      reflexivity.
  - destruct (health_check_fails_after_three (HL := recording_logger) (HR := in_memory_repository) 8 EmptyRequest
                {| Repo._logger := []; Repo._health_check_repository := Records [1; 2; 7] |} 3
                ltac:(reflexivity)) as [Hfull _].
    apply Hfull. lia.
Defined.

(** C7, as the specification words it, fails: when the repository cannot
    be reached, the exception of [count] leaves the handler. *)
Lemma count_exception_leaves_handler : ~ handler_never_raises.
Proof.
  intros [_ Hrepo].
  apply (Hrepo (list line) Unreachable _ _ 7 EmptyRequest
           {| Repo._logger := []; Repo._health_check_repository := NoBackend |}
           (Exception "connection refused")).
  reflexivity.
Qed.

Lemma handler_errors_converted_witness :
  Plain.HealthCheck EmptyRequest (BrokenLog [])
  = (Return {| status := NOT_SERVING; message := "Service is unhealthy: Test error" |},
     BrokenLog [ErrorLine "Health check failed" "Test error"])
  /\ Repo.HealthCheck 7 EmptyRequest
       {| Repo._logger := BrokenLog []; Repo._health_check_repository := Records [1] |}
     = (Return {| status := NOT_SERVING; message := "Service is unhealthy: Test error" |},
        {| Repo._logger := BrokenLog [ErrorLine "Health check failed" "Test error"];
           Repo._health_check_repository := Records [1] |})
  /\ Repo.HealthCheck 7 EmptyRequest
       {| Repo._logger := ([] : list line); Repo._health_check_repository := NoBackend |}
     = (Raise (Exception "connection refused"),
        {| Repo._logger := []; Repo._health_check_repository := NoBackend |})
  /\ Plain.HealthCheck EmptyRequest InterruptedLog
     = (Raise (BaseException "KeyboardInterrupt"), InterruptedLog).
Proof.
  destruct (handler_errors_converted (HL := broken_debug_logger)
              (HR := in_memory_repository)) as (Hplain & _ & _ & _ & Hrepo & _).
  destruct (handler_errors_converted (HL := recording_logger)
              (HR := unreachable_repository)) as (_ & _ & Hcount & _).
  destruct (handler_errors_converted (HL := interrupted_logger)
              (HR := in_memory_repository)) as (_ & Hbase & _).
  split; [|split; [|split]]; [| | |exact (Hbase EmptyRequest InterruptedLog _ eq_refl)].
  - exact (Hplain EmptyRequest (BrokenLog []) "Test error" eq_refl).
  - apply (Hrepo 7 EmptyRequest
             {| Repo._logger := BrokenLog []; Repo._health_check_repository := Records [1] |}
             {| Repo._logger := BrokenLog []; Repo._health_check_repository := Records [1] |}
             1 "Test error"); [reflexivity | lia |].
    left. split; reflexivity.
  - exact (Hcount 7 EmptyRequest
             {| Repo._logger := []; Repo._health_check_repository := NoBackend |}
             (Exception "connection refused") eq_refl).
Defined.

End HandlerFacts.

(* ===================================================================== *)
(** ** Further facts about the server lifecycle                           *)
(* ===================================================================== *)

Module LifecycleMore.
Import Config Lifecycle.

Ltac slice H :=
  match type of H with
  | run_task ?r ?p ?s = Some _ =>
      destruct p, r; simpl in H;
      unfold start_call, start_resume, start_wake, stop_call, stop_resume in H;
      repeat case_match; simplify_eq; simpl in *
  end.

(** Unfolding one step of the loop. *)
Lemma exec_cases l sys sys' :
  exec l sys = Some sys' ->
  (sys' = spawn StartCall sys /\ l = InvokeStart)
  \/ (sys' = spawn StopCall sys /\ l = InvokeStop)
  \/ (exists n, sys' = handle_signal n sys /\ l = Signal n)
  \/ (exists i r p p' s',
        l = Resume i r /\ tasks sys !! i = Some p
        /\ run_task r p (st sys) = Some (p', s')
        /\ sys' = {| st := s'; tasks := <[i := p']> (tasks sys) |}).
Proof.
  destruct l as [| |n|i r]; simpl; intros H.
  - left. injection H as <-. auto.
  - right; left. injection H as <-. auto.
  - right; right; left. injection H as <-. eauto.
  - right; right; right.
    destruct (tasks sys !! i) as [p|] eqn:Hp; [|discriminate].
    destruct (run_task r p (st sys)) as [[p' s']|] eqn:Ht; [|discriminate].
    injection H as <-. exists i, r, p, p', s'. auto.
Qed.

(** An invariant of the server state that every slice of a coroutine and
    every log line keeps holds after every run. *)
Lemma run_invariant (P : state -> Prop) :
  (forall r p s p' s', run_task r p s = Some (p', s') -> P s -> P s') ->
  (forall m s, P s -> P (emit (LogInfo m) s)) ->
  forall ls sys sys', run ls sys = Some sys' -> P (st sys) -> P (st sys').
Proof.
  intros Htask Hlog. induction ls as [|l ls IH]; simpl; intros sys sys' H HP.
  - injection H as <-. exact HP.
  - destruct (exec l sys) as [sys1|] eqn:Hl; [|discriminate].
    apply (IH _ _ H).
    destruct (exec_cases _ _ _ Hl)
      as [[-> _]|[[-> _]|[(n & -> & _)|(i & r & p & p' & s' & _ & _ & Ht & ->)]]];
      simpl; eauto.
Qed.

Definition configured (c : ServerConfig) (s : state) : Prop :=
  _config (srv s) = c /\ Forall (from_config c) (trace s).

Lemma configured_slice c r p s p' s' :
  run_task r p s = Some (p', s') -> configured c s -> configured c s'.
Proof.
  unfold configured. intros H [Hc Ht]. slice H;
    (split; [reflexivity|]); rewrite ?Forall_app; repeat split;
    try assumption; repeat constructor.
Qed.

(** X1. The configuration of a server never changes, and every value the
    transport receives is the configured one: the pool size, the listen
    address "host:port" and the grace period of every stop. *)
Theorem transport_sees_configured_values (c : ServerConfig) (ls : list label)
    (sys : system) :
  run ls (init c) = Some sys ->
  _config (srv (st sys)) = c /\ Forall (from_config c) (trace (st sys)).
Proof.
  intros H.
  apply (run_invariant (configured c) (configured_slice c)) with (ls := ls) (sys := init c).
  - unfold configured. intros m s [Hc Ht]. split; [exact Hc|].
    simpl. rewrite Forall_app. split; [exact Ht | repeat constructor].
  - exact H.
  - split; [reflexivity | constructor].
Qed.

Lemma transport_sees_configured_values_witness :
  exists sys,
    run [InvokeStart; Resume 0 Done; Resume 0 Done; Signal 15; Resume 1 Done]%nat
      (init default_config) = Some sys
    /\ In (ServerStop 0%nat 30) (trace (st sys))
    /\ Forall (from_config default_config) (trace (st sys)).
Proof.
  eexists. split; [vm_compute; reflexivity|].
  split; [simpl; tauto|].
  apply (transport_sees_configured_values default_config
           [InvokeStart; Resume 0 Done; Resume 0 Done; Signal 15; Resume 1 Done]%nat).
  reflexivity.
Defined.

Lemma prepared_snoc tr e :
  prepared_before_start tr ->
  (forall h, e = ServerStart h -> exists pre' w a, tr = pre' ++ preparation h w a) ->
  prepared_before_start (tr ++ [e]).
Proof.
  intros P He pre post h Heq.
  destruct post as [|x post _] using rev_ind.
  - apply app_inj_tail in Heq as [-> ->]. apply (He h). reflexivity.
  - change (ServerStart h :: post ++ [x]) with ((ServerStart h :: post) ++ [x]) in Heq.
    rewrite app_assoc in Heq. apply app_inj_tail in Heq as [-> _].
    apply (P pre post h). reflexivity.
Qed.

Lemma prepared_slice r p s p' s' :
  run_task r p s = Some (p', s') ->
  prepared_before_start (trace s) -> prepared_before_start (trace s').
Proof.
  intros H P. slice H; try assumption;
    repeat (apply prepared_snoc; [|try (intros ? [=])]); try assumption.
  subst h.
  exists (trace s ++ [LogInfo "Starting gRPC server"]),
    (max_workers (_config (srv s))),
    (host (_config (srv s)) +:+ ":" +:+ pretty (port (_config (srv s)))).
  unfold preparation. rewrite <- !app_assoc. reflexivity.
Qed.

(** X2. Whenever a transport is started, the four calls just before were
    its creation, the registration of the handler, the enabling of
    reflection and the binding of the listen address, in this order. *)
Theorem transport_prepared_before_start (c : ServerConfig) (ls : list label)
    (sys : system) :
  run ls (init c) = Some sys -> prepared_before_start (trace (st sys)).
Proof.
  intros H.
  apply (run_invariant (fun s => prepared_before_start (trace s)) prepared_slice)
    with (ls := ls) (sys := init c); [| exact H |].
  - intros m s P. simpl. apply prepared_snoc; [exact P | intros ? [=]].
  - intros pre post h Heq. simpl in Heq. destruct pre; discriminate.
Qed.

Lemma transport_prepared_before_start_witness :
  exists sys,
    run [InvokeStart; Resume 0 Done; Resume 0 Done;
         InvokeStart; Resume 1 Done]%nat (init default_config) = Some sys
    /\ prepared_before_start (trace (st sys)).
Proof.
  eexists. split; [vm_compute; reflexivity|].
  apply (transport_prepared_before_start default_config
           [InvokeStart; Resume 0 Done; Resume 0 Done; InvokeStart; Resume 1 Done]%nat).
  reflexivity.
Defined.

Definition created (s : state) : Prop :=
  stops_only_created (trace s)
  /\ forall h, _server (srv s) = Some h -> exists w, In (AioServer (Some h) w) (trace s).

Lemma stops_snoc tr e :
  stops_only_created tr ->
  (forall h g, e = ServerStop h g -> exists w, In (AioServer (Some h) w) tr) ->
  stops_only_created (tr ++ [e]).
Proof.
  intros P He pre post h g Heq.
  destruct post as [|x post _] using rev_ind.
  - apply app_inj_tail in Heq as [-> ->]. apply (He h g). reflexivity.
  - change (ServerStop h g :: post ++ [x]) with ((ServerStop h g :: post) ++ [x]) in Heq.
    rewrite app_assoc in Heq. apply app_inj_tail in Heq as [-> _].
    apply (P pre post h g). reflexivity.
Qed.

Lemma created_log m s : created s -> created (emit (LogInfo m) s).
Proof.
  intros [P Q]. split; simpl.
  - apply stops_snoc; [exact P | intros ? ? [=]].
  - intros h Hh. destruct (Q h Hh) as [w Hw]. exists w. apply in_or_app. left. exact Hw.
Qed.

Lemma created_slice r p s p' s' :
  run_task r p s = Some (p', s') -> created s -> created s'.
Proof.
  unfold created. intros H [P Q]. slice H; try (split; assumption).
  all: split.
  all: try (repeat (apply stops_snoc; [|intros ? ? ?]); try assumption; try discriminate).
  all: try match goal with
         | Heq : ServerStop _ _ = ServerStop _ _, Hs : _server (srv _) = Some ?h |- _ =>
             injection Heq as <- <-;
             let w0 := fresh "w" in
             destruct (Q h ltac:(first [exact Hs | reflexivity])) as [w0 ?];
             exists w0; rewrite ?in_app_iff; tauto
         end.
  all: intros k Hk.
  all: first
         [ congruence
         | injection Hk as <-;
           match goal with
           | |- exists w, In (AioServer _ w) ?l =>
               match l with
               | context [AioServer (Some _) ?w0] => exists w0
               end
           end; rewrite ?in_app_iff; simpl; tauto
         | let w0 := fresh "w" in
           destruct (Q k ltac:(first [exact Hk | congruence])) as [w0 ?];
           exists w0; rewrite ?in_app_iff; tauto ].
Qed.

(** X3. [stop] only ever asks a transport to stop that an earlier [start]
    of the same server created. *)
Theorem stop_targets_created_transport (c : ServerConfig) (ls : list label)
    (sys : system) :
  run ls (init c) = Some sys -> stops_only_created (trace (st sys)).
Proof.
  intros H.
  apply (run_invariant created created_slice created_log ls (init c) sys H).
  split.
  - intros pre post h g Heq. simpl in Heq. destruct pre; discriminate.
  - intros h Hh. discriminate Hh.
Qed.

Lemma stop_targets_created_transport_witness :
  exists sys,
    run [InvokeStop; Resume 0 Done; InvokeStart; Resume 1 Done; Resume 1 Done;
         Signal 2; Resume 2 Done]%nat (init default_config) = Some sys
    /\ In (ServerStop 0%nat 30) (trace (st sys))
    /\ stops_only_created (trace (st sys)).
Proof.
  eexists. split; [vm_compute; reflexivity|]. split; [simpl; tauto|].
  apply (stop_targets_created_transport default_config
           [InvokeStop; Resume 0 Done; InvokeStart; Resume 1 Done; Resume 1 Done;
            Signal 2; Resume 2 Done]%nat).
  reflexivity.
Defined.

Definition latest (s : state) : Prop :=
  (forall h, _server (srv s) = Some h -> fresh s = S h)
  /\ (forall h w, In (AioServer (Some h) w) (trace s) -> (h < fresh s)%nat).

Lemma latest_slice r p s p' s' :
  run_task r p s = Some (p', s') -> latest s -> latest s'.
Proof.
  unfold latest. intros H [A B]. slice H; try (split; assumption).
  all: split; [intros k Hk | intros k w Hin].
  all: try (first [congruence | apply A; congruence]).
  all: rewrite ?in_app_iff in Hin; simpl in Hin.
  all: repeat match goal with
         | Hor : _ \/ _ |- _ => destruct Hor
         | Hf : False |- _ => destruct Hf
         | Heq : _ = AioServer _ _ |- _ => first [discriminate Heq | injection Heq as <- <-]
         | Hb : In _ (trace _) |- _ => apply B in Hb
         end; lia.
Qed.

(** X4. The transport [_server] refers to, which is the one [stop] asks to
    stop, is always the one created last: a transport that a later [start]
    replaced is out of reach of [stop]. *)
Theorem server_is_latest_transport (c : ServerConfig) (ls : list label)
    (sys : system) (h : handle) :
  run ls (init c) = Some sys ->
  server sys = Some h ->
  forall h' w, In (AioServer (Some h') w) (trace (st sys)) -> (h' <= h)%nat.
Proof.
  intros H Hs h' w Hin.
  assert (L : latest (st sys)).
  { apply (run_invariant latest latest_slice) with (ls := ls) (sys := init c); [| exact H |].
    - intros m s [A B]. split; [exact A|]. simpl. intros k w0 Hk.
      apply in_app_or in Hk as [Hk|[Hk|[]]]; [eauto | discriminate Hk].
    - split; [discriminate | intros ? ? []]. }
  destruct L as [A B]. specialize (A h Hs). specialize (B h' w Hin). lia.
Qed.

Lemma server_is_latest_transport_witness :
  exists sys,
    run [InvokeStart; Resume 0 Done; Resume 0 Done;
         InvokeStart; Resume 1 Done; InvokeStop; Resume 2 Done]%nat (init default_config)
    = Some sys
    /\ server sys = Some 1%nat
    /\ In (ServerStart 0%nat) (trace (st sys))
    /\ ~ In (ServerStop 0%nat 30) (trace (st sys))
    /\ forall h' w, In (AioServer (Some h') w) (trace (st sys)) -> (h' <= 1)%nat.
Proof.
  eexists. split; [vm_compute; reflexivity|].
  split; [reflexivity|]. split; [simpl; tauto|].
  split; [simpl; intuition discriminate|].
  apply (server_is_latest_transport default_config
           [InvokeStart; Resume 0 Done; Resume 0 Done;
            InvokeStart; Resume 1 Done; InvokeStop; Resume 2 Done]%nat);
    reflexivity.
Defined.

Lemma pending_stops_cons p ps :
  pending_stops (p :: ps) = ((if is_StopCall p then 1 else 0) + pending_stops ps)%nat.
Proof. destruct p; reflexivity. Qed.

Lemma pending_stops_snoc ps p :
  pending_stops (ps ++ [p]) = (pending_stops ps + if is_StopCall p then 1 else 0)%nat.
Proof.
  unfold pending_stops. rewrite filter_app, length_app. destruct p; reflexivity.
Qed.

Lemma pending_stops_insert ps : forall i p p',
  ps !! i = Some p ->
  (pending_stops (<[i := p']> ps) + (if is_StopCall p then 1 else 0)
   = pending_stops ps + (if is_StopCall p' then 1 else 0))%nat.
Proof.
  induction ps as [|q ps IH]; intros [|i] p p' Hi; try discriminate.
  - injection Hi as ->. simpl. rewrite !pending_stops_cons. lia.
  - simpl in Hi. simpl. rewrite !pending_stops_cons.
    specialize (IH i p p' Hi). lia.
Qed.

Lemma slice_drains r p s p' s' :
  run_task r p s = Some (p', s') ->
  (drain_count (trace s') + (if is_StopCall p' then 1 else 0)
   <= drain_count (trace s) + (if is_StopCall p then 1 else 0))%nat.
Proof.
  intros H. slice H; rewrite ?LifecycleFacts.drain_count_snoc; simpl; lia.
Qed.

Lemma exec_drains l sys sys' :
  exec l sys = Some sys' ->
  (drains sys' + pending_stops (tasks sys')
   <= drains sys + pending_stops (tasks sys)
      + if is_stop_invocation l then 1 else 0)%nat.
Proof.
  unfold drains. intros H.
  destruct (exec_cases _ _ _ H)
    as [[-> ->]|[[-> ->]|[(n & -> & ->)|(i & r & p & p' & s' & -> & Hp & Ht & ->)]]];
    simpl; rewrite ?pending_stops_snoc, ?LifecycleFacts.drain_count_snoc; simpl; try lia.
  pose proof (slice_drains _ _ _ _ _ Ht).
  pose proof (pending_stops_insert _ _ _ p' Hp). lia.
Qed.

Lemma run_drains ls : forall sys sys',
  run ls sys = Some sys' ->
  (drains sys' + pending_stops (tasks sys')
   <= drains sys + pending_stops (tasks sys) + stop_invocations ls)%nat.
Proof.
  induction ls as [|l ls IH]; simpl; intros sys sys' H.
  - injection H as <-. unfold stop_invocations. simpl. lia.
  - destruct (exec l sys) as [sys1|] eqn:Hl; [|discriminate].
    specialize (IH _ _ H). pose proof (exec_drains _ _ _ Hl).
    assert (stop_invocations (l :: ls)
            = ((if is_stop_invocation l then 1 else 0) + stop_invocations ls)%nat)
      by (destruct l; reflexivity).
    lia.
Qed.

(** X5. However the coroutines interleave, the transport is asked to drain
    at most once per invocation of [stop], an invocation being a direct
    call or a delivered signal; invocations still waiting to run count
    against the same bound. *)
Theorem drains_bounded_by_stop_invocations (c : ServerConfig) (ls : list label)
    (sys : system) :
  run ls (init c) = Some sys ->
  (drains sys + pending_stops (tasks sys) <= stop_invocations ls)%nat.
Proof.
  intros H. pose proof (run_drains ls _ _ H) as B.
  unfold drains in *. simpl in B. exact B.
Qed.

Lemma drains_bounded_by_stop_invocations_witness :
  exists sys,
    run [InvokeStart; Resume 0 Done; Resume 0 Done;
         Signal 2; Signal 15; Resume 1 Done]%nat (init default_config) = Some sys
    /\ drains sys = 1%nat
    /\ pending_stops (tasks sys) = 1%nat
    /\ (drains sys + pending_stops (tasks sys) <= 2)%nat.
Proof.
  eexists. split; [vm_compute; reflexivity|].
  split; [reflexivity|]. split; [reflexivity|].
  apply (drains_bounded_by_stop_invocations default_config
           [InvokeStart; Resume 0 Done; Resume 0 Done;
            Signal 2; Signal 15; Resume 1 Done]%nat).
  reflexivity.
Defined.

(** X6. The shutdown event is never cleared, so a server cannot be started
    again after a [stop]: a [start] called while the event is set creates,
    binds and starts a further transport and then returns at once instead
    of parking, leaving that transport running with no drain requested. *)
Theorem start_after_shutdown_returns_at_once (sys : system) (j : nat) :
  tasks sys !! j = Some StartCall ->
  latch sys = true ->
  exists sys1 sys2,
    exec (Resume j Done) sys = Some sys1
    /\ exec (Resume j Done) sys1 = Some sys2
    /\ tasks sys2 !! j = Some StartReturn
    /\ server sys2 = Some (fresh (st sys))
    /\ In (ServerStart (fresh (st sys))) (trace (st sys2))
    /\ drains sys2 = drains sys.
Proof.
  unfold latch, server, drains. intros Hj E.
  assert (Hlt : (j < length (tasks sys))%nat) by (eapply lookup_lt_Some; eauto).
  unfold exec at 1. rewrite Hj. simpl.
  eexists; eexists. split; [reflexivity|].
  unfold exec. simpl. rewrite list_lookup_insert_eq by exact Hlt. simpl. rewrite E.
  split; [reflexivity|]. simpl.
  split; [apply list_lookup_insert_eq; rewrite length_insert; exact Hlt|].
  split; [reflexivity|].
  split; [rewrite !in_app_iff; simpl; tauto|].
  rewrite !LifecycleFacts.drain_count_snoc. simpl. lia.
Qed.

Lemma start_after_shutdown_returns_at_once_witness :
  exists sys sys1 sys2,
    run [InvokeStart; Resume 0 Done; Resume 0 Done;
         InvokeStop; Resume 1 Done; Resume 1 Done; Resume 0 Done;
         InvokeStart]%nat (init default_config) = Some sys
    /\ exec (Resume 2 Done) sys = Some sys1
    /\ exec (Resume 2 Done) sys1 = Some sys2
    /\ tasks sys2 = [StartReturn; StopReturn; StartReturn]
    /\ server sys2 = Some 1%nat
    /\ drains sys2 = 1%nat.
Proof.
  eexists.
  destruct (start_after_shutdown_returns_at_once
              {| st := {| srv := {| _config := default_config; _server := Some O;
                                    _shutdown_event := true |};
                          trace := [LogInfo "Starting gRPC server"; AioServer (Some O) 10;
                                    AddServicer O; EnableReflection O;
                                    AddInsecurePort O "0.0.0.0:50051"; ServerStart O;
                                    LogInfo "gRPC server started";
                                    LogInfo "Stopping gRPC server"; ServerStop O 30;
                                    LogInfo "gRPC server stopped"];
                          fresh := 1%nat |};
                 tasks := [StartReturn; StopReturn; StartCall] |}
              2%nat eq_refl eq_refl) as (sys1 & sys2 & H1 & H2 & _ & Hs & _ & Hd).
  exists sys1, sys2. split; [vm_compute; reflexivity|].
  split; [exact H1|]. split; [exact H2|].
  split; [|split; [exact Hs | exact Hd]].
  vm_compute in H1. injection H1 as <-. vm_compute in H2. injection H2 as <-. reflexivity.
Defined.

End LifecycleMore.

(* ===================================================================== *)
(** ** Further facts about the handlers                                   *)
(* ===================================================================== *)

Module HandlerMore.
Import Handler.

Ltac step_handler :=
  unfold Repo.HealthCheck, Repo.log, Repo.repository_count, Repo.repository_create,
    validate_less_than, try_except, context_abort, call, mbind, mret, M_bind, M_ret;
  simpl.


Section Collaborators.
Context {L R : Type} `{HL : Logger L} `{HR : ModelRepository R}.

(** X8. One call of the repository-backed handler changes the repository
    by at most one [create], made only when fewer than three records are
    counted.  An answer of SERVING means the record was stored, an aborted
    call leaves logger and repository as they were; a stored record does
    not mean SERVING, as the log line after the [create] may still fail. *)
Theorem health_check_writes_at_most_once (now : Z) (request : HealthCheckRequest)
    (s : Repo.TemplateService L R) :
  let r := Repo.HealthCheck now request s in
  (Repo._health_check_repository r.2 = Repo._health_check_repository s
   \/ exists n r1,
        count (Repo._health_check_repository s) = inr n /\ n < 3
        /\ create now (Repo._health_check_repository s) = inr r1
        /\ Repo._health_check_repository r.2 = r1)
  /\ (forall resp, r.1 = Return resp -> status resp = SERVING ->
      exists r1, create now (Repo._health_check_repository s) = inr r1
                 /\ Repo._health_check_repository r.2 = r1)
  /\ (forall code details, r.1 = Abort code details ->
      r.2 = s /\ code = RESOURCE_EXHAUSTED).
Proof.
  step_handler.
  destruct (count (Repo._health_check_repository s)) as [e|n] eqn:Hc; simpl.
  { split; [left; reflexivity|]. split; intros; discriminate. }
  destruct (3 <=? n) eqn:E; simpl.
  { split; [left; reflexivity|]. split; [intros; discriminate|].
    intros code details [= <- _]. split; reflexivity. }
  apply Z.leb_gt in E.
  destruct (debug "Health check requested" (Repo._logger s)) as [[e|c]|l1] eqn:Hd1; simpl.
  { destruct (error "Health check failed" e (Repo._logger s)); simpl;
      (split; [left; reflexivity|]); (split; [|intros; discriminate]);
      intros resp [= <-] Hs; discriminate Hs. }
  { split; [left; reflexivity|]. split; intros; discriminate. }
  destruct (create now (Repo._health_check_repository s)) as [[e|c]|r1] eqn:Hcr; simpl.
  { destruct (error "Health check failed" e l1); simpl;
      (split; [left; reflexivity|]); (split; [|intros; discriminate]);
      intros resp [= <-] Hs; discriminate Hs. }
  { split; [left; reflexivity|]. split; intros; discriminate. }
  destruct (debug "Created health check record" l1) as [[e|c]|l2] eqn:Hd2; simpl.
  { destruct (error "Health check failed" e l1); simpl;
      (split; [right; exists n, r1; auto|]); (split; [|intros; discriminate]);
      intros resp [= <-] Hs; discriminate Hs. }
  { split; [right; exists n, r1; auto|]. split; intros; discriminate. }
  split; [right; exists n, r1; auto|]. split; [|intros; discriminate].
  intros resp _ _. exists r1. auto.
Qed.

End Collaborators.

Lemma health_check_writes_at_most_once_witness :
  (Repo.HealthCheck 7 EmptyRequest
     {| Repo._logger := PickyLog [];
        Repo._health_check_repository := Records [1] |}).1
  = Return (unhealthy "disk full")
  /\ exists n r1,
       count (Records [1]) = inr n /\ n < 3
       /\ create 7 (Records [1]) = inr r1
       /\ Repo._health_check_repository
            (Repo.HealthCheck 7 EmptyRequest
               {| Repo._logger := PickyLog [];
                  Repo._health_check_repository := Records [1] |}).2 = r1
       /\ r1 = Records [1; 7].
Proof.
  split; [reflexivity|].
  destruct (health_check_writes_at_most_once (HL := picky_logger)
              (HR := in_memory_repository) 7 EmptyRequest
              {| Repo._logger := PickyLog [];
                 Repo._health_check_repository := Records [1] |})
    as [[Hsame|(n & r1 & Hn & Hlt & Hcr & Hr)] _].
  - vm_compute in Hsame. discriminate Hsame.
  - exists n, r1. repeat split; try assumption.
    vm_compute in Hcr. injection Hcr as <-. reflexivity.
Defined.

Lemma health_checks_cons (now : Z) (rest : list Z) (l : list line) (rows : list Z) :
  health_checks (now :: rest)
    {| Repo._logger := l; Repo._health_check_repository := Records rows |}
  = let (o, s1) :=
      Repo.HealthCheck now EmptyRequest
        {| Repo._logger := l; Repo._health_check_repository := Records rows |} in
    let (os, s2) := health_checks rest s1 in (o :: os, s2).
Proof. reflexivity. Qed.

Lemma in_memory_health_checks (nows : list Z) : forall (l : list line) (rows : list Z),
  let k := (3 - length rows)%nat in
  let r := health_checks nows
             {| Repo._logger := l; Repo._health_check_repository := Records rows |} in
  r.1 = replicate (min (length nows) k) (Return healthy)
        ++ replicate (length nows - k) (Abort RESOURCE_EXHAUSTED exhausted)
  /\ Repo._health_check_repository r.2 = Records (rows ++ take k nows).
Proof.
  induction nows as [|now rest IH]; intros l rows; cbv zeta.
  - simpl. rewrite take_nil, app_nil_r. split; reflexivity.
  - rewrite health_checks_cons, HandlerFacts.in_memory_health_check.
    destruct (3 <=? Z.of_nat (length rows)) eqn:E.
    + apply Z.leb_le in E.
      assert (K : (3 - length rows = 0)%nat) by lia.
      specialize (IH l rows). cbv zeta in IH. rewrite K in *.
      destruct (health_checks rest _) as [os s2]. simpl in *.
      destruct IH as [-> ->].
      rewrite Nat.min_0_r, Nat.sub_0_r. simpl.
      rewrite take_0. split; reflexivity.
    + apply Z.leb_gt in E.
      destruct (3 - length rows)%nat as [|k'] eqn:K; [lia|].
      specialize (IH (l ++ [DebugLine "Health check requested";
                            DebugLine "Created health check record"])
                    (rows ++ [now])).
      cbv zeta in IH. rewrite length_app in IH. simpl in IH.
      replace (3 - (length rows + 1))%nat with k' in IH by lia.
      destruct (health_checks rest _) as [os s2]. simpl in *.
      destruct IH as [-> ->]. rewrite <- app_assoc. split; reflexivity.
Qed.

(** X9. With the in-memory repository and a working logger, calls made
    one after the other succeed until three records are stored and are
    all aborted with RESOURCE_EXHAUSTED from then on; the repository never
    grows beyond three records, each stored with the time of its call. *)
Theorem health_check_works_three_times (nows : list Z) (l : list line) (rows : list Z) :
  let k := (3 - length rows)%nat in
  let r := health_checks nows
             {| Repo._logger := l; Repo._health_check_repository := Records rows |} in
  r.1 = replicate (min (length nows) k) (Return healthy)
        ++ replicate (length nows - k) (Abort RESOURCE_EXHAUSTED exhausted)
  /\ Repo._health_check_repository r.2 = Records (rows ++ take k nows).
Proof. apply in_memory_health_checks. Qed.

End HandlerMore.

(* ===================================================================== *)
(** ** Facts about the process entry                                      *)
(* ===================================================================== *)

Module EntryFacts.
Import Config Entry.

(** X10. [setup_logging] fails, before [structlog.configure] is called,
    exactly when the root logger has no handler yet and the configured
    level is not a registered level name.  When it goes through, the
    [structlog.configure] call depends on the configuration only through
    whether the format is exactly "json": two configurations lead to the
    same call precisely when they agree on that, and the calls differ only
    in the last processor, the JSON renderer for "json" and the console
    renderer for every other format. *)
Theorem renderer_follows_format (root_has_handlers : bool) (c1 c2 : LoggingConfig) :
  (forall e, setup_logging root_has_handlers c1 = inl e
             <-> root_has_handlers = false /\ known_level (level c1) = false
                 /\ e = UnknownLevel (level c1))
  /\ (forall r1 r2,
        setup_logging root_has_handlers c1 = inr r1 ->
        setup_logging root_has_handlers c2 = inr r2 ->
        (configure r1 = configure r2 <-> (format c1 = "json" <-> format c2 = "json"))
        /\ take 8 (processors (configure r1)) = take 8 (processors (configure r2))
        /\ drop 8 (processors (configure r1))
           = [if bool_decide (format c1 = "json") then JSONRenderer else ConsoleRenderer]).
Proof.
  unfold setup_logging, basicConfig. split.
  - intros e. destruct root_has_handlers; [split; [discriminate | intros [F _]; discriminate F]|].
    destruct (known_level (level c1)).
    + split; [discriminate | intros (_ & F & _); discriminate F].
    + split; [intros [= <-]; auto | intros (_ & _ & ->); reflexivity].
  - intros r1 r2 H1 H2.
    destruct root_has_handlers;
      [| destruct (known_level (level c1)); [|discriminate H1];
         destruct (known_level (level c2)); [|discriminate H2] ];
      injection H1 as <-; injection H2 as <-; simpl;
      destruct (String.eqb_spec (format c1) "json") as [F1|F1],
               (String.eqb_spec (format c2) "json") as [F2|F2]; simpl;
      rewrite ?(bool_decide_eq_true_2 _ F1), ?(bool_decide_eq_false_2 _ F1);
      repeat split; auto; try discriminate;
      try (intros [G1 G2]; tauto); intros G; tauto.
Qed.

Lemma renderer_follows_format_witness :
  (exists r1 r2,
      setup_logging false {| level := "INFO"; format := "JSON" |} = inr r1
      /\ setup_logging false {| level := "DEBUG"; format := "console" |} = inr r2
      /\ configure r1 = configure r2
      /\ drop 8 (processors (configure r1)) = [ConsoleRenderer])
  /\ setup_logging false {| level := "info"; format := "json" |}
     = inl (UnknownLevel "info").
Proof.
  split.
  - destruct (renderer_follows_format false {| level := "INFO"; format := "JSON" |}
                {| level := "DEBUG"; format := "console" |}) as [_ Hok].
    eexists; eexists. split; [reflexivity|]. split; [reflexivity|].
    destruct (Hok _ _ eq_refl eq_refl) as ([_ Hsame] & _ & Hlast).
    split; [|exact Hlast].
    apply Hsame. simpl. split; intros F; discriminate F.
  - destruct (renderer_follows_format false {| level := "info"; format := "json" |}
                {| level := "info"; format := "json" |}) as [Hfail _].
    apply Hfail. repeat split.
Defined.

(** X11. Once the statements before its [try] block have gone through,
    [main] awaits [start] exactly once and then [stop] exactly once,
    however [start] ends and whatever [stop] does; when those statements
    raise, it awaits neither and the exception leaves [main]. *)
Theorem main_always_stops (b : behaviour) :
  (before_try b = None ->
   count is_AwaitStart (main b).1 = 1%nat
   /\ count is_AwaitStop (main b).1 = 1%nat
   /\ exists mid tail, (main b).1 = AwaitStart :: mid ++ AwaitStop :: tail)
  /\ (forall x, before_try b = Some x -> main b = ([], Some x)).
Proof.
  unfold main. split.
  - intros ->.
    destruct (start_result b) as [[|code|e]|], (stop_result b) as [x|]; simpl;
      (split; [reflexivity|]); (split; [reflexivity|]).
    all: first
           [ exists [Info "Received keyboard interrupt"]; eexists; reflexivity
           | exists [Error "Application error" e; LogException e]; eexists; reflexivity
           | exists []; eexists; reflexivity ].
  - intros x ->. reflexivity.
Qed.

Lemma main_always_stops_witness :
  count is_AwaitStop
    (main {| before_try := None; start_result := Some (Exception "address in use");
             stop_result := None |}).1 = 1%nat
  /\ main {| before_try := Some (Exception "validation error"); start_result := None;
             stop_result := None |}
     = ([], Some (Exception "validation error")).
Proof.
  split.
  - apply (main_always_stops
             {| before_try := None; start_result := Some (Exception "address in use");
                stop_result := None |}).
    reflexivity.
  - apply (main_always_stops
             {| before_try := Some (Exception "validation error"); start_result := None;
                stop_result := None |}).
    reflexivity.
Defined.



End EntryFacts.

(* ===================================================================== *)
(** ** Further facts about the configuration                              *)
(* ===================================================================== *)

Module ConfigMore.
Import Config.

(** X13. Every [ServerConfig] the constructor builds, from whatever
    keyword arguments and environment, has at least one worker. *)
Theorem constructed_config_has_workers (str_to_int : string -> option Z)
    (kw : ServerKwargs) (environ : list (string * string)) (c : ServerConfig) :
  ServerConfig_new str_to_int kw environ = inr c -> 0 < max_workers c.
Proof.
  unfold ServerConfig_new. intros H.
  destruct (validate_str "host" "0.0.0.0" _) as [eh|h]; [discriminate H|].
  destruct (validate_int str_to_int "port" 50051 _) as [ep|p0].
  { destruct (validate_int_gt _ _ _ _ _), (validate_int _ "grace_period" _ _);
      discriminate H. }
  destruct (validate_int_gt str_to_int "max_workers" 10 0 _) as [ew|w] eqn:Hw.
  { destruct (validate_int _ "grace_period" _ _); discriminate H. }
  destruct (validate_int str_to_int "grace_period" 30 _) as [eg|g]; [discriminate H|].
  injection H as <-. simpl.
  unfold validate_int_gt in Hw.
  destruct (field_input _ _ _ _) as [v|]; [|injection Hw as <-; lia].
  destruct (validate_int str_to_int "max_workers" 10 (Some v)) as [e|z]; [discriminate Hw|].
  destruct (0 <? z) eqn:E; [|discriminate Hw].
  injection Hw as <-. apply Z.ltb_lt. exact E.
Qed.

Lemma constructed_config_has_workers_witness :
  exists c,
    ServerConfig_new decimal no_server_kwargs [("SERVER_MAX_WORKERS", "4")] = inr c
    /\ max_workers c = 4
    /\ 0 < max_workers c.
Proof.
  eexists. split; [vm_compute; reflexivity|]. split; [reflexivity|].
  apply (constructed_config_has_workers decimal no_server_kwargs
           [("SERVER_MAX_WORKERS", "4")]).
  vm_compute. reflexivity.
Defined.


End ConfigMore.
